(** * Reminder app (streamlit_app.py): time arithmetic, persistence, lifecycle

    A shallow embedding of the reminder tracker of [streamlit_app.py] and
    the properties of its natural-language specification.

    Modelling conventions.
    - A naive [datetime.datetime] is a point on the local wall-clock time
      line, an integer number of microseconds; a [datetime.timedelta] is a
      signed number of microseconds.  Comparison, [+] and [-] of Python are
      then the ones of [Z].
    - [timedelta.total_seconds()] is the float [microseconds / 10**6].  It is
      kept as the exact quantity, in microseconds; [divmod] by a whole number
      of seconds and [int(...)] are computed on that exact quantity.
    - [datetime.datetime.now()], [uuid.uuid4()] and the widgets of the page
      are inputs of the functions that read them.
    - A reminder is a Python dict with the six fixed keys written by the
      "add" handler.  The lifecycle code is modelled over a record with these
      six fields; the persistence code, which inspects the dynamic type of
      the values, over finite maps from keys to Python values.
    - The file is held as the JSON document it contains, not as text:
      [json.load] returns what [json.dump] wrote.
    - Of the page, the state it changes and the messages of [st.error] are
      kept; markdown, toasts and the polling of lines 264-269 are not.  The
      session list is taken as it is at the start of a run (lines 103-105
      fill it from the file in the first run of a session).  The text of an
      exception inside an error message is left out. *)

From Stdlib Require Import DecimalString DecimalPos DecimalZ.
From stdpp Require Import gmap strings list pretty sorting.

Open Scope string_scope.
Open Scope Z_scope.

(** ** Time values *)

Abbreviation datetime := Z (only parsing).
Abbreviation timedelta := Z (only parsing).

(** Microseconds per second. *)
Definition usec : Z := 1000000.

(** [datetime.timedelta(seconds=v)], [minutes=v], [hours=v], [days=v]. *)
Module timedelta.
Definition seconds (v : Z) : timedelta := v * usec.
Definition minutes (v : Z) : timedelta := v * 60 * usec.
Definition hours (v : Z) : timedelta := v * 3600 * usec.
Definition days (v : Z) : timedelta := v * 86400 * usec.
End timedelta.

(** [divmod(x, n)] for a quantity [x] of seconds held in microseconds and a
    whole number [n] of seconds: the quotient is a whole number, the
    remainder stays a quantity in microseconds. *)
Definition divmod (x : Z) (n : Z) : Z * Z :=
  (x `div` (n * usec), x `mod` (n * usec)).

(** [int(x)] for a quantity of seconds held in microseconds (truncation). *)
Definition int_secs (x : Z) : Z := x `quot` usec.

(** [' '.join(parts)]. *)
Definition join (parts : list string) : string := String.concat " " parts.

(** [parts.append(p)]. *)
Definition append (parts : list string) (p : string) : list string :=
  (parts ++ [p])%list.

(** ** TimeMath: [format_timedelta_dhms] (lines 30-59) *)

Definition format_timedelta_dhms (delta : timedelta) : string :=
  let seconds := delta in
  if decide (seconds ≤ 0) then
    let abs_seconds := Z.abs seconds in
    let '(days, rem) := divmod abs_seconds 86400 in
    let '(hours, rem) := divmod rem 3600 in
    let '(minutes, secs) := divmod rem 60 in
    let parts : list string := [] in
    let parts := if decide (days > 0) then append parts (pretty days +:+ "d") else parts in
    let parts := if decide (hours > 0) then append parts (pretty hours +:+ "h") else parts in
    let parts := if decide (minutes > 0) then append parts (pretty minutes +:+ "m") else parts in
    let parts :=
      if decide (secs > 0 ∨ parts = [])
      then append parts (pretty (int_secs secs) +:+ "s") else parts in
    if decide (abs_seconds > 0)
    then "Overdue by " +:+ (if decide (parts = []) then "0s" else join parts) +:+ "!"
    else "Due NOW!"
  else
    let '(days, rem) := divmod seconds 86400 in
    let '(hours, rem) := divmod rem 3600 in
    let '(minutes, secs) := divmod rem 60 in
    let parts : list string := [] in
    let parts := if decide (days > 0) then append parts (pretty days +:+ "d") else parts in
    let parts := if decide (hours > 0) then append parts (pretty hours +:+ "h") else parts in
    let parts := if decide (minutes > 0) then append parts (pretty minutes +:+ "m") else parts in
    let parts :=
      if decide (parts = [] ∨ (days = 0 ∧ hours = 0 ∧ minutes = 0))
      then append parts (pretty (int_secs secs) +:+ "s") else parts in
    join parts.

(** ** Data model *)

(** The four status constants (lines 11-14) and the strings they stand for. *)
Inductive Status := STATUS_PENDING | STATUS_DUE | STATUS_DISMISSED | STATUS_COMPLETED.

Global Instance Status_eq_dec : EqDecision Status.
Proof. solve_decision. Defined.

Definition status_str (s : Status) : string :=
  match s with
  | STATUS_PENDING => "pending"
  | STATUS_DUE => "due"
  | STATUS_DISMISSED => "dismissed"
  | STATUS_COMPLETED => "completed"
  end.

(** The dict built by the "add" handler (lines 121-128), as a record. *)
Record reminder := Reminder {
  id : string;
  task : string;
  due_time : datetime;
  created_at : datetime;
  status : Status;
  completed_at : option datetime;   (* [None] is Python's [None] *)
}.

Global Instance reminder_eq_dec : EqDecision reminder.
Proof. solve_decision. Defined.

(** [reminder['status'] = s] and [reminder['completed_at'] = c]: the only two
    item assignments the program makes on a reminder. *)
Definition set_status (s : Status) (r : reminder) : reminder :=
  Reminder (id r) (task r) (due_time r) (created_at r) s (completed_at r).

Definition set_completed_at (c : option datetime) (r : reminder) : reminder :=
  Reminder (id r) (task r) (due_time r) (created_at r) (status r) c.

(** ** Python values and dicts, for the persistence code *)

Inductive pyval :=
  | PNone
  | PStr (s : string)
  | PDatetime (d : datetime).

Global Instance pyval_eq_dec : EqDecision pyval.
Proof. solve_decision. Defined.

(** Truth value of a Python object: [None] and [''] are false, a datetime
    is always true. *)
Definition truthy (v : pyval) : bool :=
  match v with
  | PNone => false
  | PStr s => bool_decide (s ≠ "")
  | PDatetime _ => true
  end.

Abbreviation pydict := (gmap string pyval).

(** [d.get(k)]: [None] for a missing key. *)
Definition get (d : pydict) (k : string) : pyval := default PNone (d !! k).

Definition of_option (c : option datetime) : pyval :=
  match c with Some d => PDatetime d | None => PNone end.

(** The dict a reminder record stands for. *)
Definition to_dict (r : reminder) : pydict :=
  <["completed_at" := of_option (completed_at r)]>
  (<["status" := PStr (status_str (status r))]>
  (<["created_at" := PDatetime (created_at r)]>
  (<["due_time" := PDatetime (due_time r)]>
  (<["task" := PStr (task r)]>
  (<["id" := PStr (id r)]> ∅))))).

(** The file [REMINDERS_FILE]: absent, present but not readable as JSON
    ([IOError] or [json.JSONDecodeError] on load), or a JSON array of
    objects. *)
Inductive file_state :=
  | Absent
  | Unreadable
  | Document (doc : list pydict).

(** What the program can change or show: the session's reminder list, the
    file, and the messages displayed with [st.error].  [writable] tells
    whether opening the file for writing succeeds. *)
Record world := World {
  reminders : list reminder;
  file : file_state;
  writable : bool;
  errors : list string;
}.

Definition set_reminders (l : list reminder) (w : world) : world :=
  World l (file w) (writable w) (errors w).

Definition set_file (f : file_state) (w : world) : world :=
  World (reminders w) f (writable w) (errors w).

(** [st.error(msg)]. *)
Definition st_error (msg : string) (w : world) : world :=
  World (reminders w) (file w) (writable w) (errors w ++ [msg]).

(** ** [sorted(l, key=..., reverse=...)]

    Python's [sorted] is stable, also with [reverse=True]: elements with
    equal keys keep their order.  Insertion from the right places an element
    in front of the first one it may precede, which gives that result. *)

Definition precedes {A} (key : A → Z) (reverse : bool) (x y : A) : bool :=
  if reverse then bool_decide (key y ≤ key x) else bool_decide (key x ≤ key y).

Fixpoint insert_sorted {A} (key : A → Z) (reverse : bool) (x : A) (l : list A) : list A :=
  match l with
  | [] => [x]
  | y :: l' =>
      if precedes key reverse x y then x :: y :: l'
      else y :: insert_sorted key reverse x l'
  end.

Definition sorted {A} (key : A → Z) (reverse : bool) (l : list A) : list A :=
  foldr (insert_sorted key reverse) [] l.

(** ** Widgets and inputs of one run of the script *)

(** The options of [st.selectbox("Unit:", ...)] (line 115). *)
Inductive unit_option := Seconds | Minutes | Hours | Days.

Definition unit_str (u : unit_option) : string :=
  match u with
  | Seconds => "seconds"
  | Minutes => "minutes"
  | Hours => "hours"
  | Days => "days"
  end.

(** The form of lines 108-117.  [st.number_input(min_value=1, step=1)]
    yields an integer that is at least 1. *)
Record form := Form {
  task_description : string;
  time_value : positive;
  time_unit : unit_option;
  submitted : bool;
}.

(** The widgets of the two lists, by reminder id (their keys are
    [complete_<id>], [dismiss_<id>], [uncomplete_<id>] and
    [dismiss_completed_<id>]). *)
Record widgets := Widgets {
  complete_checkbox : string → bool;
  dismiss_button : string → bool;
  uncomplete_checkbox : string → bool;
  dismiss_completed_button : string → bool;
}.

(** No widget touched: unticked "complete" boxes, ticked "completed" boxes,
    no button pressed. *)
Definition untouched : widgets :=
  Widgets (λ _, false) (λ _, false) (λ _, true) (λ _, false).

(** [st.rerun()] stops the run of the script. *)
Inductive flow := Continue | Rerun.

(** A notification of [due_notifications_this_cycle].  The program appends
    the task; [about] is a ghost field, the position in the session list of
    the reminder that raised it. *)
Record notification := Notification { about : nat; task_name : string }.

(** State of one rendering: the world and [due_notifications_this_cycle]. *)
Record pass := Pass {
  now_world : world;
  due_notifications_this_cycle : list notification;
}.

(** What one rendering leaves: the world, the two sorted lists (references
    into the session list), the notifications, and whether it was cut short
    by [st.rerun()]. *)
Record rendering := Rendering {
  after : world;
  sorted_active_reminders : list nat;
  sorted_completed_reminders : list nat;
  became_due : list notification;
  ended : flow;
}.

(** What one run of the script reads from outside: the form, the widgets,
    [uuid.uuid4()], and the clock.  A run reads the clock at most twice:
    lines 18 and 125 when a reminder is added, lines 139 and 198 when the
    lists are rendered. *)
Record run_input := RunInput {
  the_form : form;
  the_widgets : widgets;
  uuid4 : string;
  clock1 : datetime;
  clock2 : datetime;
}.

Section App.

(** [datetime.isoformat] and [datetime.datetime.fromisoformat] of the
    standard library; [None] stands for a [ValueError]. *)
Variable isoformat : datetime → string.
Variable fromisoformat : string → option datetime.

(** *** [calculate_due_time] (lines 16-28); [now] is its clock reading *)

Definition calculate_due_time (now : datetime) (value : Z) (unit : string)
    (w : world) : datetime * world :=
  if decide (unit = "seconds") then (now + timedelta.seconds value, w)
  else if decide (unit = "minutes") then (now + timedelta.minutes value, w)
  else if decide (unit = "hours") then (now + timedelta.hours value, w)
  else if decide (unit = "days") then (now + timedelta.days value, w)
  else (now, st_error ("Unknown time unit: " +:+ unit) w).

(** *** [save_reminders_to_file] (lines 61-77) *)

(** Body of the loop, lines 66-70. *)
Definition serialize (r : pydict) : pydict :=
  let sr := r in
  let sr :=
    <["due_time" := match get sr "due_time" with
                    | PDatetime d => PStr (isoformat d)
                    | v => v
                    end]> sr in
  let sr :=
    <["created_at" := match get sr "created_at" with
                      | PDatetime d => PStr (isoformat d)
                      | v => v
                      end]> sr in
  match get sr "completed_at" with
  | PDatetime d as v =>
      if truthy v then <["completed_at" := PStr (isoformat d)]> sr else sr
  | _ => sr
  end.

(** [json.dump] writes strings and [None]; it raises [TypeError] on a
    datetime.  [serialize] leaves none in the dict of a reminder record
    (lemma [serialize_to_dict_json] below), so the write of lines 73-77
    either succeeds or fails with [IOError]. *)
Definition json_serializable (d : pydict) : Prop :=
  ∀ k v, d !! k = Some v → v = PNone ∨ ∃ s, v = PStr s.

Definition save_reminders_to_file (reminders_list : list reminder) (w : world) : world :=
  let serializable_reminders := serialize <$> (to_dict <$> reminders_list) in
  if writable w
  then set_file (Document serializable_reminders) w
  else st_error "Error saving reminders" w.

(** *** [load_reminders_from_file] (lines 79-98) *)

(** Body of the loop, lines 89-93; [None] when [fromisoformat] raises. *)
Definition deserialize (r : pydict) : option pydict :=
  let lr := r in
  due ← match get r "due_time" with
        | PStr s => PDatetime <$> fromisoformat s
        | v => Some v
        end;
  let lr := <["due_time" := due]> lr in
  created ← match get r "created_at" with
            | PStr s => PDatetime <$> fromisoformat s
            | v => Some v
            end;
  let lr := <["created_at" := created]> lr in
  match get r "completed_at" with
  | PStr s as v =>
      if truthy v
      then d ← fromisoformat s; Some (<["completed_at" := PDatetime d]> lr)
      else Some lr
  | _ => Some lr
  end.

(** The result is [None] when an exception escapes the function: line 96
    catches [IOError] and [json.JSONDecodeError], not the [ValueError] of
    [fromisoformat]. *)
Definition load_reminders_from_file (w : world) : option (list pydict * world) :=
  match file w with
  | Absent => Some ([], w)
  | Unreadable =>
      Some ([], st_error "Error loading reminders. Starting with an empty list." w)
  | Document loaded_reminders =>
      deserialized_reminders ← mapM deserialize loaded_reminders;
      Some (deserialized_reminders, w)
  end.

(** *** The "add" handler (lines 119-132) *)

(** [save_reminders_to_file(st.session_state.reminders)]. *)
Definition save (w : world) : world := save_reminders_to_file (reminders w) w.

(** Lines 120-130; [now] is the clock reading of line 18 and [now'] the one
    of line 125. *)
Definition add_reminder (now now' : datetime) (uuid : string)
    (task_description : string) (time_value : Z) (time_unit : string)
    (w : world) : world :=
  let '(due_time, w) := calculate_due_time now time_value time_unit w in
  let new_reminder :=
    Reminder uuid task_description due_time now' STATUS_PENDING None in
  let w := set_reminders (reminders w ++ [new_reminder]) w in
  save w.

(** *** Item assignments through a reference *)

(** The two sorted lists hold references to the dicts of the session list,
    so an assignment made through a list element is seen in the session
    list.  A reference is the position of the dict in the session list. *)
Definition assign (i : nat) (f : reminder → reminder) (w : world) : world :=
  set_reminders (alter f i (reminders w)) w.

(** Lines 168-171: the automatic transition. *)
Definition become_due (i : nat) (reminder : reminder) (p : pass) : pass :=
  let w := assign i (set_status STATUS_DUE) (now_world p) in
  let notifications :=
    (due_notifications_this_cycle p ++ [Notification i (task reminder)])%list in
  Pass (save w) notifications.

(** Lines 197-199; [now] is the clock reading of line 198. *)
Definition complete (now : datetime) (i : nat) (w : world) : world :=
  let w := assign i (set_status STATUS_COMPLETED) w in
  let w := assign i (set_completed_at (Some now)) w in
  save w.

(** Lines 239-241. *)
Definition uncomplete (i : nat) (w : world) : world :=
  let w := assign i (set_status STATUS_PENDING) w in
  let w := assign i (set_completed_at None) w in
  save w.

(** Lines 211-212 and lines 253-254: the two "dismiss" buttons run the same
    two statements. *)
Definition dismiss (i : nat) (w : world) : world :=
  let w := assign i (set_status STATUS_DISMISSED) w in
  save w.

(** *** Classification and display order (lines 143-156) *)

(** The loop of lines 146-152 from position [i] on. *)
Fixpoint classify (i : nat) (l : list reminder)
    (pending_due_reminders completed_reminders_list : list nat)
    : list nat * list nat :=
  match l with
  | [] => (pending_due_reminders, completed_reminders_list)
  | r :: l' =>
      if decide (status r = STATUS_DISMISSED)
      then classify (S i) l' pending_due_reminders completed_reminders_list
      else if decide (status r = STATUS_COMPLETED)
      then classify (S i) l' pending_due_reminders
             (completed_reminders_list ++ [i])%list
      else classify (S i) l' (pending_due_reminders ++ [i])%list
             completed_reminders_list
  end.

(** [lambda r: r['due_time']] on a reference. *)
Definition due_key (l : list reminder) (i : nat) : Z :=
  from_option due_time 0 (l !! i).

(** [lambda r: r.get('completed_at') or r['created_at']] on a reference (a
    datetime is never false). *)
Definition completed_key (l : list reminder) (i : nat) : Z :=
  from_option (λ r, default (created_at r) (completed_at r)) 0 (l !! i).

Definition active_list (l : list reminder) : list nat :=
  sorted (due_key l) false (classify 0 l [] []).1.

Definition completed_list (l : list reminder) : list nat :=
  sorted (completed_key l) true (classify 0 l [] []).2.

(** *** The two display loops *)

(** Body of the loop over the active list, lines 162-215. *)
Definition active_item (pg : widgets) (current_time now : datetime)
    (i : nat) (p : pass) : pass * flow :=
  match reminders (now_world p) !! i with
  | None => (p, Continue)
  | Some reminder =>
      let time_left := due_time reminder - current_time in
      let task_id := id reminder in
      let p :=
        if decide (time_left ≤ 0 ∧ status reminder = STATUS_PENDING)
        then become_due i reminder p else p in
      let is_completed_by_user := complete_checkbox pg task_id in
      if is_completed_by_user
         && bool_decide (status <$> reminders (now_world p) !! i ≠ Some STATUS_COMPLETED)
      then (Pass (complete now i (now_world p)) (due_notifications_this_cycle p), Rerun)
      else if dismiss_button pg task_id
      then (Pass (dismiss i (now_world p)) (due_notifications_this_cycle p), Rerun)
      else (p, Continue)
  end.

(** Body of the loop over the completed list, lines 224-257. *)
Definition completed_item (pg : widgets) (i : nat) (p : pass) : pass * flow :=
  match reminders (now_world p) !! i with
  | None => (p, Continue)
  | Some reminder =>
      let task_id := id reminder in
      let is_still_completed := uncomplete_checkbox pg task_id in
      if negb is_still_completed
      then (Pass (uncomplete i (now_world p)) (due_notifications_this_cycle p), Rerun)
      else if dismiss_completed_button pg task_id
      then (Pass (dismiss i (now_world p)) (due_notifications_this_cycle p), Rerun)
      else (p, Continue)
  end.

(** A [for] loop whose body may end the run. *)
Fixpoint for_each (body : nat → pass → pass * flow) (l : list nat) (p : pass)
    : pass * flow :=
  match l with
  | [] => (p, Continue)
  | i :: l' =>
      match body i p with
      | (p', Rerun) => (p', Rerun)
      | (p', Continue) => for_each body l' p'
      end
  end.

(** *** Rendering of the lists (lines 136-262) *)

Definition render (pg : widgets) (current_time now : datetime) (w : world) : rendering :=
  if decide (reminders w = []) then Rendering w [] [] [] Continue
  else
    let sorted_active := active_list (reminders w) in
    let sorted_completed := completed_list (reminders w) in
    match for_each (active_item pg current_time now) sorted_active (Pass w []) with
    | (p, Rerun) =>
        Rendering (now_world p) sorted_active sorted_completed
          (due_notifications_this_cycle p) Rerun
    | (p, Continue) =>
        let '(p, fl) := for_each (completed_item pg) sorted_completed p in
        Rendering (now_world p) sorted_active sorted_completed
          (due_notifications_this_cycle p) fl
    end.

(** *** One run of the script (lines 107-262) *)

Definition script_run (inp : run_input) (w : world) : rendering :=
  let f := the_form inp in
  if submitted f && bool_decide (task_description f ≠ "")
  then
    Rendering
      (add_reminder (clock1 inp) (clock2 inp) (uuid4 inp) (task_description f)
         (Z.pos (time_value f)) (unit_str (time_unit f)) w)
      [] [] [] Rerun
  else render (the_widgets inp) (clock1 inp) (clock2 inp) w.

(** One step of the session: some run of the script. *)
Definition step (w w' : world) : Prop :=
  ∃ inp, w' = after (script_run inp w).

(** *** The operations of the specification *)

(** [evaluate(now)]: a rendering at time [now] in which no widget is
    touched. *)
Definition evaluate (now : datetime) (w : world) : rendering :=
  render untouched now now w.

(** Successive evaluations, each on the world the previous one left. *)
Fixpoint evaluations (nows : list datetime) (w : world) : list rendering :=
  match nows with
  | [] => []
  | now :: nows' =>
      let out := evaluate now w in
      out :: evaluations nows' (after out)
  end.

(** The reminders a list of references shows, read in the session list
    [l]. *)
Definition shown (l : list reminder) (refs : list nat) : list reminder :=
  omap (λ i, l !! i) refs.

End App.

(** ** A text form of timestamps for closed examples

    The statements below hold for any [isoformat] and [fromisoformat]; the
    round trip through the file needs that the second undoes the first and
    that the first never yields the empty string.  The decimal count of
    microseconds is a pair of functions with these two properties; closed
    examples are evaluated with it. *)

Definition decimal_stamp (d : datetime) : string :=
  DecimalString.NilZero.string_of_int (Z.to_int d).

Definition parse_decimal_stamp (s : string) : option datetime :=
  Z.of_int <$> DecimalString.NilZero.int_of_string s.

(** ** Inputs for closed examples *)

(** The form as the page shows it before anything is typed (lines 109-117). *)
Definition blank_form : form := Form "" 10 Minutes false.

(** A run at time [now] in which nothing is submitted and [pg] is the state
    of the widgets. *)
Definition run_at (now : datetime) (pg : widgets) : run_input :=
  RunInput blank_form pg "" now now.

(** A run in which the form is submitted. *)
Definition submit (f : form) (uuid : string) (now now' : datetime) : run_input :=
  RunInput f untouched uuid now now'.

(** An empty session, no file yet, on a writable disk. *)
Definition fresh_world : world := World [] Absent true [].

(** A session with a pending, a completed and a dismissed reminder, created
    at time 0 and due 10, 5 and 1 seconds later. *)
Definition milk : reminder :=
  Reminder "id-1" "Buy milk" (timedelta.seconds 10) 0 STATUS_PENDING None.

Definition call : reminder :=
  Reminder "id-2" "Call Ann" (timedelta.seconds 5) 0 STATUS_COMPLETED
    (Some (timedelta.seconds 7)).

Definition old : reminder :=
  Reminder "id-3" "Old note" (timedelta.seconds 1) 0 STATUS_DISMISSED None.

Definition sample_world : world := World [milk; call; old] Absent true [].

(** Every "dismiss" button of the completed list pressed, nothing else
    touched. *)
Definition dismiss_completed_pressed : widgets :=
  Widgets (λ _, false) (λ _, false) (λ _, true) (λ _, true).

(** Every widget of the page changed: boxes of the active list ticked, boxes
    of the completed list unticked, all buttons pressed. *)
Definition all_touched : widgets :=
  Widgets (λ _, true) (λ _, true) (λ _, false) (λ _, true).

(** ** The properties of the specification, as predicates *)

(** "[completed_at] is present if and only if [status == Completed]". *)
Definition completed_at_iff_completed (r : reminder) : Prop :=
  is_Some (completed_at r) ↔ status r = STATUS_COMPLETED.

(** What the handlers keep instead: the same, for every reminder that is not
    dismissed. *)
Definition completed_at_consistent (r : reminder) : Prop :=
  status r ≠ STATUS_DISMISSED → completed_at_iff_completed r.

(** The status is one the active list shows. *)
Definition is_active (r : reminder) : Prop :=
  status r = STATUS_PENDING ∨ status r = STATUS_DUE.

Global Instance is_active_dec r : Decision (is_active r).
Proof. unfold is_active. apply _. Defined.

(** The key of line 156 on a reminder. *)
Definition completion_key (r : reminder) : Z :=
  default (created_at r) (completed_at r).

(** The changes the handlers make to one reminder. *)
Inductive transition : reminder → reminder → Prop :=
  | transition_due r :
      status r = STATUS_PENDING →
      transition r (set_status STATUS_DUE r)
  | transition_complete r now :
      is_active r →
      transition r (set_completed_at (Some now) (set_status STATUS_COMPLETED r))
  | transition_uncomplete r :
      status r = STATUS_COMPLETED →
      transition r (set_completed_at None (set_status STATUS_PENDING r))
  | transition_dismiss r :
      status r ≠ STATUS_DISMISSED →
      transition r (set_status STATUS_DISMISSED r).

(** What the automatic transition alone does to a reminder: nothing, or
    pending to due. *)
Definition ages (r r' : reminder) : Prop :=
  r' = r ∨ (status r = STATUS_PENDING ∧ r' = set_status STATUS_DUE r).

(** The condition of line 167 on a reminder. *)
Definition overdue_pending (current_time : datetime) (r : reminder) : Prop :=
  due_time r - current_time ≤ 0 ∧ status r = STATUS_PENDING.

(** A reminder as the "add" handler makes it. *)
Definition newly_added (r : reminder) : Prop :=
  status r = STATUS_PENDING ∧ completed_at r = None.

(** The session list [l'] continues [l]: reminders were appended, as the
    "add" handler makes them, and every reminder is at the place it was
    given, changed by transitions only. *)
Definition continues (l l' : list reminder) : Prop :=
  ∃ new, Forall newly_added new ∧ Forall2 (rtc transition) (l ++ new)%list l'.

(** The offset a submitted form asks for. *)
Definition offset (f : form) : timedelta :=
  match time_unit f with
  | Seconds => timedelta.seconds (Z.pos (time_value f))
  | Minutes => timedelta.minutes (Z.pos (time_value f))
  | Hours => timedelta.hours (Z.pos (time_value f))
  | Days => timedelta.days (Z.pos (time_value f))
  end.

(** The four units [calculate_due_time] knows. *)
Definition recognized (unit : string) : Prop :=
  unit = "seconds" ∨ unit = "minutes" ∨ unit = "hours" ∨ unit = "days".

(** Number of notifications about the reminder at position [i]. *)
Definition times_notified (i : nat) (outs : list rendering) : nat :=
  length (filter (λ n, about n = i) (mjoin (became_due <$> outs))).

(** ** Further predicates, for the code around the claims *)

(** The file holds what saving the session list writes. *)
Definition in_sync (isoformat : datetime → string) (w : world) : Prop :=
  file w = Document (serialize isoformat <$> (to_dict <$> reminders w)).

(** The three keys that hold timestamps. *)
Definition time_keys : list string := ["due_time"; "created_at"; "completed_at"].

(** What lines 167-168 do to one reminder at time [current_time]. *)
Definition age (current_time : datetime) (r : reminder) : reminder :=
  if decide (overdue_pending current_time r) then set_status STATUS_DUE r else r.

(** The notification that lines 167-169 raise for the reference [i] into
    the session list [l], if any. *)
Definition notification_of (current_time : datetime) (l : list reminder)
    (i : nat) : option notification :=
  r ← l !! i;
  if decide (overdue_pending current_time r)
  then Some (Notification i (task r)) else None.

(** No widget of the reminder [r] is touched on the page [pg]. *)
Definition untouched_for (pg : widgets) (r : reminder) : Prop :=
  complete_checkbox pg (id r) = false ∧ dismiss_button pg (id r) = false ∧
  uncomplete_checkbox pg (id r) = true ∧ dismiss_completed_button pg (id r) = false.

(** Line 264: [any(r['status'] in [STATUS_PENDING, STATUS_DUE] for r in
    st.session_state.reminders)]; when it is true the run sleeps and asks
    for another run (lines 267-269). *)
Definition active_reminders_exist (l : list reminder) : bool :=
  existsb (λ r, bool_decide (status r ∈ [STATUS_PENDING; STATUS_DUE])) l.

(** A page on which only the "complete" box of the id [x] is ticked, only
    its "dismiss" button pressed, only its "completed" box unticked, only
    its "dismiss" button of the completed list pressed. *)
Definition tick (x : string) : widgets :=
  Widgets (λ y, bool_decide (y = x)) (λ _, false) (λ _, true) (λ _, false).

Definition press_dismiss (x : string) : widgets :=
  Widgets (λ _, false) (λ y, bool_decide (y = x)) (λ _, true) (λ _, false).

Definition untick (x : string) : widgets :=
  Widgets (λ _, false) (λ _, false) (λ y, bool_decide (y ≠ x)) (λ _, false).

Definition press_dismiss_completed (x : string) : widgets :=
  Widgets (λ _, false) (λ _, false) (λ _, true) (λ y, bool_decide (y = x)).

(** A session with two active reminders, a completed and a dismissed one:
    "Pay rent" is due first. *)
Definition rent : reminder :=
  Reminder "id-4" "Pay rent" (timedelta.seconds 4) 0 STATUS_PENDING None.

Definition busy_world : world := World [milk; call; old; rent] Absent true [].

(** The same session on a disk that cannot be written. *)
Definition readonly_world : world := World [milk; call; old; rent] Absent false [].

(** A file with a due time that is no timestamp. *)
Definition broken_world : world :=
  World [] (Document [<["due_time" := PStr "tomorrow"]> (to_dict milk)]) true [].

(** * Properties *)

(** ** TimeMath *)

Example format_due_now : format_timedelta_dhms 0 = "Due NOW!".
Proof. reflexivity. Qed.

Example format_overdue_5s :
  format_timedelta_dhms (- timedelta.seconds 5) = "Overdue by 5s!".
Proof. vm_compute. reflexivity. Qed.

Example format_overdue_3661s :
  format_timedelta_dhms (- timedelta.seconds 3661) = "Overdue by 1h 1m 1s!".
Proof. vm_compute. reflexivity. Qed.

Example format_45s : format_timedelta_dhms (timedelta.seconds 45) = "45s".
Proof. vm_compute. reflexivity. Qed.

Example format_2d_3h_5m_10s :
  format_timedelta_dhms
    (timedelta.days 2 + timedelta.hours 3 + timedelta.minutes 5 + timedelta.seconds 10)
  = "2d 3h 5m".
Proof. vm_compute. reflexivity. Qed.

(** Below one minute the positive branch shows the seconds, and only them. *)
Lemma format_below_minute (delta : timedelta) :
  0 < delta < timedelta.minutes 1 →
  format_timedelta_dhms delta = pretty (int_secs delta) +:+ "s".
Proof.
  unfold timedelta.minutes, usec. intros [Hpos Hlt].
  unfold format_timedelta_dhms, divmod, usec.
  destruct (decide (delta ≤ 0)) as [?|_]; [lia|].
  rewrite (Z.div_small delta (86400 * 1000000)) by lia.
  rewrite (Z.mod_small delta (86400 * 1000000)) by lia.
  rewrite (Z.div_small delta (3600 * 1000000)) by lia.
  rewrite (Z.mod_small delta (3600 * 1000000)) by lia.
  rewrite (Z.div_small delta (60 * 1000000)) by lia.
  rewrite (Z.mod_small delta (60 * 1000000)) by lia.
  reflexivity.
Qed.


(** C1 (the code departs from it).  On a positive delta of 3661 seconds
    [format_timedelta_dhms] returns "1h 1m" and on 90 seconds "1m": the
    seconds are left out as soon as a larger component is shown, where the
    claim, the docstring of the function and its overdue branch all show
    them ("1h 1m 1s", "1m 30s"). *)
Theorem format_remaining_leaves_out_seconds :
  format_timedelta_dhms (timedelta.seconds 3661) = "1h 1m" ∧
  format_timedelta_dhms (timedelta.seconds 90) = "1m".
Proof. split; vm_compute; reflexivity. Qed.

(** ** ReminderStore *)

Section Store.

Variable isoformat : datetime → string.
Variable fromisoformat : string → option datetime.

Lemma get_insert_eq (d : pydict) k v : get (<[k := v]> d) k = v.
Proof. unfold get. by rewrite lookup_insert_eq. Qed.

Lemma get_insert_ne (d : pydict) k k' v : k ≠ k' → get (<[k := v]> d) k' = get d k'.
Proof. intros. unfold get. by rewrite lookup_insert_ne. Qed.

Lemma serialize_to_dict (r : reminder) :
  serialize isoformat (to_dict r) =
  <["completed_at" := from_option (λ d, PStr (isoformat d)) PNone (completed_at r)]>
  (<["status" := PStr (status_str (status r))]>
  (<["created_at" := PStr (isoformat (created_at r))]>
  (<["due_time" := PStr (isoformat (due_time r))]>
  (<["task" := PStr (task r)]>
  (<["id" := PStr (id r)]> ∅))))).
Proof.
  unfold serialize, to_dict.
  destruct r as [i t d c s [ca|]]; simpl.
  all: repeat (rewrite ?get_insert_eq, ?get_insert_ne by done; simpl).
  all: apply map_eq; intros k.
  all: repeat (rewrite lookup_insert; case_decide; subst; try done).
Qed.

(** X5.  The dict written for a reminder holds strings and [None] only, so
    [json.dump] does not raise [TypeError]. *)
Lemma serialize_to_dict_json (r : reminder) :
  json_serializable (serialize isoformat (to_dict r)).
Proof.
  rewrite serialize_to_dict. intros k v.
  repeat (rewrite lookup_insert; case_decide; subst;
          [intros [= <-]; destruct (completed_at r); simpl; eauto|]).
  by rewrite lookup_empty.
Qed.

Lemma status_str_inj (s s' : Status) : status_str s = status_str s' → s = s'.
Proof. by destruct s, s'. Qed.

(** A reminder record is determined by its dict: equality of dicts is
    equality field by field. *)
Lemma to_dict_inj (r r' : reminder) : to_dict r = to_dict r' → r = r'.
Proof.
  intros E.
  assert (L : ∀ k, to_dict r !! k = to_dict r' !! k) by (by rewrite E).
  destruct r as [i t d c s ca], r' as [i' t' d' c' s' ca'].
  pose proof (L "id") as Hid. pose proof (L "task") as Htask.
  pose proof (L "due_time") as Hdue. pose proof (L "created_at") as Hcreated.
  pose proof (L "status") as Hstatus. pose proof (L "completed_at") as Hca.
  unfold to_dict in *; simpl in *.
  repeat (rewrite lookup_insert in Hid; case_decide; try done).
  repeat (rewrite lookup_insert in Htask; case_decide; try done).
  repeat (rewrite lookup_insert in Hdue; case_decide; try done).
  repeat (rewrite lookup_insert in Hcreated; case_decide; try done).
  repeat (rewrite lookup_insert in Hstatus; case_decide; try done).
  repeat (rewrite lookup_insert in Hca; case_decide; try done).
  simplify_eq.
  f_equal; [by apply status_str_inj|].
  destruct ca, ca'; simpl in *; congruence.
Qed.

Section RoundTrip.

Hypothesis fromisoformat_isoformat : ∀ d, fromisoformat (isoformat d) = Some d.
Hypothesis isoformat_not_empty : ∀ d, isoformat d ≠ "".

Lemma deserialize_serialize (r : reminder) :
  deserialize fromisoformat (serialize isoformat (to_dict r)) = Some (to_dict r).
Proof.
  rewrite serialize_to_dict. unfold deserialize, to_dict.
  destruct r as [i t d c s [ca|]]; simpl.
  all: repeat (rewrite ?get_insert_eq, ?get_insert_ne by done; simpl).
  all: rewrite ?fromisoformat_isoformat; simpl.
  all: rewrite ?bool_decide_true by apply isoformat_not_empty.
  all: rewrite ?fromisoformat_isoformat; simpl.
  all: f_equal; apply map_eq; intros k.
  all: repeat (rewrite lookup_insert; case_decide; subst; try done).
Qed.

Lemma mapM_deserialize_serialize (X : list reminder) :
  mapM (deserialize fromisoformat) (serialize isoformat <$> (to_dict <$> X))
  = Some (to_dict <$> X).
Proof.
  apply mapM_Some. rewrite <- list_fmap_compose.
  apply Forall2_fmap_l, Forall2_fmap_r, Forall_Forall2_diag, Forall_forall.
  intros r _. apply deserialize_serialize.
Qed.

End RoundTrip.

(** C6.  When [fromisoformat] undoes [isoformat] (and an ISO text is never
    empty), a reminder that is serialized and then deserialized is the same
    dict, key by key, also when its [completed_at] is [None]; and loading
    the file that a successful save of the collection [X] wrote returns [X],
    without an error message.  By [to_dict_inj] equal dicts are equal
    reminders. *)
Theorem save_load_round_trip (r : reminder) (X : list reminder) (w : world) :
  (∀ d, fromisoformat (isoformat d) = Some d) →
  (∀ d, isoformat d ≠ "") →
  writable w = true →
  deserialize fromisoformat (serialize isoformat (to_dict r)) = Some (to_dict r) ∧
  load_reminders_from_file fromisoformat (save_reminders_to_file isoformat X w)
  = Some (to_dict <$> X, save_reminders_to_file isoformat X w).
Proof.
  intros Hinv Hne Hw. split.
  - by apply deserialize_serialize.
  - unfold load_reminders_from_file, save_reminders_to_file. rewrite Hw. simpl.
    by rewrite mapM_deserialize_serialize.
Qed.

End Store.

(** ** [sorted] *)

Section Sorted.

Context {A : Type} (key : A → Z) (reverse : bool).

Lemma precedes_total x y : precedes key reverse x y = false → precedes key reverse y x.
Proof.
  unfold precedes. destruct reverse.
  - intros H%bool_decide_eq_false. apply bool_decide_pack. lia.
  - intros H%bool_decide_eq_false. apply bool_decide_pack. lia.
Qed.

Lemma precedes_trans x y z :
  precedes key reverse x y → precedes key reverse y z → precedes key reverse x z.
Proof.
  unfold precedes. destruct reverse.
  - intros H1%bool_decide_unpack H2%bool_decide_unpack. apply bool_decide_pack. lia.
  - intros H1%bool_decide_unpack H2%bool_decide_unpack. apply bool_decide_pack. lia.
Qed.

Lemma insert_sorted_Permutation x l : insert_sorted key reverse x l ≡ₚ x :: l.
Proof.
  induction l as [|y l IH]; simpl; [done|].
  destruct (precedes key reverse x y); [done|].
  rewrite IH. apply Permutation_swap.
Qed.

Lemma sorted_Permutation l : sorted key reverse l ≡ₚ l.
Proof.
  induction l as [|x l IH]; simpl; [done|].
  rewrite insert_sorted_Permutation. by rewrite IH.
Qed.

Lemma insert_sorted_StronglySorted x l :
  StronglySorted (λ a b, precedes key reverse a b) l →
  StronglySorted (λ a b, precedes key reverse a b) (insert_sorted key reverse x l).
Proof.
  induction 1 as [|y l Hl IH Hy]; simpl.
  - repeat constructor.
  - destruct (precedes key reverse x y) eqn:E.
    + constructor; [by constructor|].
      constructor; [by rewrite E|].
      eapply Forall_impl; [exact Hy|]. intros z Hz. simpl in Hz.
      eapply precedes_trans; [|exact Hz]. by rewrite E.
    + constructor; [exact IH|].
      rewrite insert_sorted_Permutation. constructor; [|exact Hy].
      by apply precedes_total.
Qed.

Lemma sorted_StronglySorted l :
  StronglySorted (λ a b, precedes key reverse a b) (sorted key reverse l).
Proof.
  induction l as [|x l IH]; simpl; [constructor|].
  by apply insert_sorted_StronglySorted.
Qed.

(** Stability: the elements with a given key come out in the order they
    came in.  With the two lemmas above this determines the result, so
    [sorted] is Python's [sorted]. *)
Lemma insert_sorted_stable k x l :
  filter (λ a, key a = k) (insert_sorted key reverse x l)
  = filter (λ a, key a = k) (x :: l).
Proof.
  induction l as [|y l IH]; simpl; [done|].
  destruct (precedes key reverse x y) eqn:E; [done|].
  rewrite filter_cons, IH, !filter_cons.
  destruct (decide (key y = k)) as [Hy|Hy], (decide (key x = k)) as [Hx|Hx];
    try done.
  exfalso. unfold precedes in E.
  destruct reverse; apply bool_decide_eq_false in E; lia.
Qed.

Lemma sorted_stable k l :
  filter (λ a, key a = k) (sorted key reverse l) = filter (λ a, key a = k) l.
Proof.
  induction l as [|x l IH]; simpl; [done|].
  rewrite insert_sorted_stable, !filter_cons, IH. done.
Qed.

Lemma sorted_elem_of x l : x ∈ sorted key reverse l ↔ x ∈ l.
Proof. by rewrite sorted_Permutation. Qed.

Lemma sorted_NoDup l : NoDup l → NoDup (sorted key reverse l).
Proof. by rewrite sorted_Permutation. Qed.

End Sorted.

(** ** Classification (lines 143-156) *)

Lemma classify_acc i l a c :
  classify i l a c
  = ((a ++ (classify i l [] []).1)%list, (c ++ (classify i l [] []).2)%list).
Proof.
  revert i a c. induction l as [|r l IH]; intros i a c; simpl.
  - by rewrite !app_nil_r.
  - repeat case_decide.
    + apply IH.
    + rewrite IH, (IH _ _ ([] ++ [i])%list). simpl. by rewrite <- app_assoc.
    + rewrite IH, (IH _ ([] ++ [i])%list). simpl. by rewrite <- app_assoc.
Qed.

Lemma not_dismissed_not_completed r :
  status r ≠ STATUS_DISMISSED → status r ≠ STATUS_COMPLETED → is_active r.
Proof. unfold is_active. destruct (status r); intuition. Qed.

Lemma is_active_status r :
  is_active r ↔ status r ≠ STATUS_DISMISSED ∧ status r ≠ STATUS_COMPLETED.
Proof. unfold is_active. destruct (status r); intuition congruence. Qed.

Lemma classify_cons_1 i r l :
  (classify i (r :: l) [] []).1
  = ((if decide (is_active r) then [i] else []) ++ (classify (S i) l [] []).1)%list.
Proof.
  simpl. pose proof (is_active_status r).
  repeat case_decide; try (exfalso; intuition congruence).
  - done.
  - by rewrite classify_acc.
  - by rewrite classify_acc.
Qed.

Lemma classify_cons_2 i r l :
  (classify i (r :: l) [] []).2
  = ((if decide (status r = STATUS_COMPLETED) then [i] else [])
     ++ (classify (S i) l [] []).2)%list.
Proof.
  simpl. repeat case_decide; try congruence.
  - done.
  - by rewrite classify_acc.
  - by rewrite classify_acc.
Qed.

Lemma classify_elem_of_1 i l j :
  j ∈ (classify i l [] []).1
  ↔ ∃ r, (i ≤ j)%nat ∧ l !! (j - i)%nat = Some r ∧ is_active r.
Proof.
  revert i. induction l as [|r l IH]; intros i.
  - simpl. split; [by intros ?%elem_of_nil|]. by intros (? & _ & ? & _).
  - rewrite classify_cons_1, elem_of_app, IH. split.
    + intros [Hj|(r' & Hle & Hl & Ha)].
      * case_decide; [|by apply elem_of_nil in Hj].
        apply list_elem_of_singleton in Hj as ->. exists r.
        by rewrite Nat.sub_diag.
      * exists r'. split; [lia|]. split; [|done].
        by replace (j - i)%nat with (S (j - S i)) by lia.
    + intros (r' & Hle & Hl & Ha).
      destruct (decide (j = i)) as [->|Hne].
      * rewrite Nat.sub_diag in Hl. simplify_eq/=. left.
        rewrite decide_True by done. by apply list_elem_of_singleton.
      * right. exists r'. split; [lia|]. split; [|done].
        by replace (j - i)%nat with (S (j - S i)) in Hl by lia.
Qed.

Lemma classify_elem_of_2 i l j :
  j ∈ (classify i l [] []).2
  ↔ ∃ r, (i ≤ j)%nat ∧ l !! (j - i)%nat = Some r ∧ status r = STATUS_COMPLETED.
Proof.
  revert i. induction l as [|r l IH]; intros i.
  - simpl. split; [by intros ?%elem_of_nil|]. by intros (? & _ & ? & _).
  - rewrite classify_cons_2, elem_of_app, IH. split.
    + intros [Hj|(r' & Hle & Hl & Ha)].
      * case_decide; [|by apply elem_of_nil in Hj].
        apply list_elem_of_singleton in Hj as ->. exists r.
        by rewrite Nat.sub_diag.
      * exists r'. split; [lia|]. split; [|done].
        by replace (j - i)%nat with (S (j - S i)) by lia.
    + intros (r' & Hle & Hl & Ha).
      destruct (decide (j = i)) as [->|Hne].
      * rewrite Nat.sub_diag in Hl. simplify_eq/=. left.
        rewrite decide_True by done. by apply list_elem_of_singleton.
      * right. exists r'. split; [lia|]. split; [|done].
        by replace (j - i)%nat with (S (j - S i)) in Hl by lia.
Qed.

Lemma classify_NoDup_1 i l : NoDup (classify i l [] []).1.
Proof.
  revert i. induction l as [|r l IH]; intros i; [constructor|].
  rewrite classify_cons_1. case_decide; [|apply IH].
  simpl. constructor; [|apply IH].
  rewrite classify_elem_of_1. intros (? & ? & _). lia.
Qed.

Lemma classify_NoDup_2 i l : NoDup (classify i l [] []).2.
Proof.
  revert i. induction l as [|r l IH]; intros i; [constructor|].
  rewrite classify_cons_2. case_decide; [|apply IH].
  simpl. constructor; [|apply IH].
  rewrite classify_elem_of_2. intros (? & ? & _). lia.
Qed.

Lemma shown_classify_1 pre l :
  shown (pre ++ l) (classify (length pre) l [] []).1 = filter is_active l.
Proof.
  revert pre. induction l as [|r l IH]; intros pre; [done|].
  rewrite classify_cons_1, filter_cons. unfold shown in *.
  rewrite omap_app.
  replace (S (length pre)) with (length (pre ++ [r])) by (rewrite length_app; simpl; lia).
  replace (pre ++ r :: l)%list with ((pre ++ [r]) ++ l)%list by (by rewrite <- app_assoc).
  rewrite IH. case_decide; [|done].
  simpl. rewrite <- app_assoc. simpl.
  by rewrite list_lookup_middle.
Qed.

Lemma shown_classify_2 pre l :
  shown (pre ++ l) (classify (length pre) l [] []).2
  = filter (λ r, status r = STATUS_COMPLETED) l.
Proof.
  revert pre. induction l as [|r l IH]; intros pre; [done|].
  rewrite classify_cons_2, filter_cons. unfold shown in *.
  rewrite omap_app.
  replace (S (length pre)) with (length (pre ++ [r])) by (rewrite length_app; simpl; lia).
  replace (pre ++ r :: l)%list with ((pre ++ [r]) ++ l)%list by (by rewrite <- app_assoc).
  rewrite IH. case_decide; [|done].
  simpl. rewrite <- app_assoc. simpl.
  by rewrite list_lookup_middle.
Qed.

Lemma shown_Permutation l refs refs' : refs ≡ₚ refs' → shown l refs ≡ₚ shown l refs'.
Proof. unfold shown. by intros ->. Qed.

Lemma shown_StronglySorted (R : relation nat) (R' : relation reminder) l refs :
  (∀ i j r r', R i j → l !! i = Some r → l !! j = Some r' → R' r r') →
  StronglySorted R refs → StronglySorted R' (shown l refs).
Proof.
  intros HR. induction 1 as [|i refs Hrefs IH Hi]; simpl; [constructor|].
  destruct (l !! i) as [r|] eqn:Hli; simpl; [|exact IH].
  constructor; [exact IH|].
  apply Forall_forall. intros r' Hr'.
  apply list_elem_of_omap in Hr' as (j & Hj & Hlj).
  rewrite Forall_forall in Hi. eauto.
Qed.

Lemma active_list_elem_of l i :
  i ∈ active_list l ↔ ∃ r, l !! i = Some r ∧ is_active r.
Proof.
  unfold active_list. rewrite sorted_elem_of, classify_elem_of_1.
  rewrite Nat.sub_0_r. split.
  - intros (r & _ & ? & ?). eauto.
  - intros (r & ? & ?). exists r. split; [lia|done].
Qed.

Lemma completed_list_elem_of l i :
  i ∈ completed_list l ↔ ∃ r, l !! i = Some r ∧ status r = STATUS_COMPLETED.
Proof.
  unfold completed_list. rewrite sorted_elem_of, classify_elem_of_2.
  rewrite Nat.sub_0_r. split.
  - intros (r & _ & ? & ?). eauto.
  - intros (r & ? & ?). exists r. split; [lia|done].
Qed.

Lemma active_list_NoDup l : NoDup (active_list l).
Proof. apply sorted_NoDup, classify_NoDup_1. Qed.

Lemma completed_list_NoDup l : NoDup (completed_list l).
Proof. apply sorted_NoDup, classify_NoDup_2. Qed.

(** C7.  The active list shows exactly the reminders whose status is pending
    or due, in ascending order of [due_time]; the completed list shows
    exactly the completed ones, in descending order of [completed_at], with
    [created_at] in its place where it is [None]; a dismissed reminder is in
    neither list.  Both are total functions of the session list, and no
    reference occurs twice. *)
Theorem classification_lists (l : list reminder) :
  (shown l (active_list l) ≡ₚ filter is_active l ∧
   StronglySorted (λ r r', due_time r ≤ due_time r') (shown l (active_list l))) ∧
  (shown l (completed_list l) ≡ₚ filter (λ r, status r = STATUS_COMPLETED) l ∧
   StronglySorted (λ r r', completion_key r' ≤ completion_key r)
     (shown l (completed_list l))) ∧
  (∀ i, i ∈ active_list l ↔ ∃ r, l !! i = Some r ∧ is_active r) ∧
  (∀ i, i ∈ completed_list l ↔ ∃ r, l !! i = Some r ∧ status r = STATUS_COMPLETED) ∧
  NoDup (active_list l) ∧ NoDup (completed_list l) ∧
  (∀ i, status <$> l !! i = Some STATUS_DISMISSED →
        (i ∉ active_list l) ∧ (i ∉ completed_list l)).
Proof.
  repeat split.
  - unfold active_list.
    rewrite (shown_Permutation _ _ _ (sorted_Permutation _ _ _)).
    by rewrite <- (shown_classify_1 [] l).
  - unfold active_list.
    eapply shown_StronglySorted; [|apply sorted_StronglySorted].
    intros i j r r' Hij Hi Hj. unfold precedes, due_key in Hij.
    rewrite Hi, Hj in Hij. by apply bool_decide_unpack in Hij.
  - unfold completed_list.
    rewrite (shown_Permutation _ _ _ (sorted_Permutation _ _ _)).
    by rewrite <- (shown_classify_2 [] l).
  - unfold completed_list.
    eapply shown_StronglySorted; [|apply sorted_StronglySorted].
    intros i j r r' Hij Hi Hj. unfold precedes, completed_key in Hij.
    rewrite Hi, Hj in Hij. by apply bool_decide_unpack in Hij.
  - by apply active_list_elem_of.
  - by apply active_list_elem_of.
  - by apply completed_list_elem_of.
  - by apply completed_list_elem_of.
  - apply active_list_NoDup.
  - apply completed_list_NoDup.
  - rewrite active_list_elem_of. intros (r & Hr & Ha).
    rewrite Hr in H. simpl in H. unfold is_active in Ha.
    destruct Ha; congruence.
  - rewrite completed_list_elem_of. intros (r & Hr & Ha).
    rewrite Hr in H. simpl in H. congruence.
Qed.

(** ** LifecycleEngine *)

Section Lifecycle.

(** [iso] is [datetime.isoformat]; nothing in this section depends on what
    it returns. *)
Variable iso : datetime → string.

(** *** What the handlers do to the session list *)

Lemma reminders_save w : reminders (save iso w) = reminders w.
Proof. unfold save, save_reminders_to_file. by destruct (writable w). Qed.

Lemma reminders_assign i f w : reminders (assign i f w) = alter f i (reminders w).
Proof. done. Qed.

Lemma reminders_become_due i r p :
  reminders (now_world (become_due iso i r p))
  = alter (set_status STATUS_DUE) i (reminders (now_world p)).
Proof. unfold become_due. simpl. by rewrite reminders_save. Qed.

Lemma reminders_complete now i w :
  reminders (complete iso now i w)
  = alter (λ r, set_completed_at (Some now) (set_status STATUS_COMPLETED r)) i
      (reminders w).
Proof.
  unfold complete. rewrite reminders_save, !reminders_assign.
  by rewrite list_alter_alter_eq.
Qed.

Lemma reminders_uncomplete i w :
  reminders (uncomplete iso i w)
  = alter (λ r, set_completed_at None (set_status STATUS_PENDING r)) i
      (reminders w).
Proof.
  unfold uncomplete. rewrite reminders_save, !reminders_assign.
  by rewrite list_alter_alter_eq.
Qed.

Lemma reminders_dismiss i w :
  reminders (dismiss iso i w) = alter (set_status STATUS_DISMISSED) i (reminders w).
Proof. unfold dismiss. by rewrite reminders_save. Qed.

(** *** The relations [ages] and [transition] *)

Global Instance ages_refl : Reflexive ages.
Proof. intros r. by left. Qed.

Global Instance ages_trans : Transitive ages.
Proof.
  intros r1 r2 r3 [->|[H1 ->]] [->|[H2 ->]]; try (by left); try (by right).
Qed.

Lemma ages_transition r r' : ages r r' → rtc transition r r'.
Proof.
  intros [->|[H ->]]; [done|]. apply rtc_once. by constructor.
Qed.

Lemma ages_not_pending r r' : ages r r' → status r ≠ STATUS_PENDING → r' = r.
Proof. by intros [->|[? _]]. Qed.

Lemma ages_is_active r r' : ages r r' → is_active r ↔ is_active r'.
Proof.
  intros [->|[H ->]]; [done|]. unfold is_active. simpl. rewrite H. intuition.
Qed.

Lemma ages_completed r r' :
  ages r r' → status r = STATUS_COMPLETED ↔ status r' = STATUS_COMPLETED.
Proof.
  intros [->|[H ->]]; [done|]. simpl. rewrite H. intuition discriminate.
Qed.

Lemma ages_dismissed r r' :
  ages r r' → status r = STATUS_DISMISSED ↔ status r' = STATUS_DISMISSED.
Proof.
  intros [->|[H ->]]; [done|]. simpl. rewrite H. intuition discriminate.
Qed.

Lemma ages_fields r r' :
  ages r r' →
  id r' = id r ∧ task r' = task r ∧ due_time r' = due_time r ∧
  created_at r' = created_at r ∧ completed_at r' = completed_at r.
Proof. by intros [->|[H ->]]. Qed.

Lemma alter_related (R : relation reminder) `{!Reflexive R} l i f :
  (∀ r, l !! i = Some r → R r (f r)) → Forall2 R l (alter f i l).
Proof.
  intros H. apply Forall2_alter_r; [reflexivity|].
  intros x y Hx Hy _. rewrite Hx in Hy. injection Hy as <-. by apply H.
Qed.

Lemma Forall2_ages_transition l l' :
  Forall2 ages l l' → Forall2 (rtc transition) l l'.
Proof.
  intros H. eapply Forall2_impl; [exact H|]. intros ??. apply ages_transition.
Qed.

Lemma Forall2_lookup_ages l l' i r' :
  Forall2 ages l l' → l' !! i = Some r' → ∃ r, l !! i = Some r ∧ ages r r'.
Proof. intros H Hi. by apply (Forall2_lookup_r _ _ _ _ _ H Hi). Qed.

(** *** One item of the active list *)

(** The first statement of the loop body: the automatic transition. *)
Lemma become_due_ages current_time i r p :
  reminders (now_world p) !! i = Some r →
  Forall2 ages (reminders (now_world p))
    (reminders (now_world
       (if decide (due_time r - current_time ≤ 0 ∧ status r = STATUS_PENDING)
        then become_due iso i r p else p))).
Proof.
  intros Hi. case_decide as Hc; [|reflexivity].
  rewrite reminders_become_due. apply alter_related; [apply _|].
  intros r0 Hr0. rewrite Hi in Hr0. injection Hr0 as <-. right.
  by destruct Hc.
Qed.

Lemma active_item_continue pg current_time now i p p' :
  active_item iso pg current_time now i p = (p', Continue) →
  Forall2 ages (reminders (now_world p)) (reminders (now_world p')).
Proof.
  unfold active_item.
  destruct (reminders (now_world p) !! i) as [r|] eqn:Hi.
  - pose proof (become_due_ages current_time i r p Hi) as Hages.
    destruct (_ && _); [by intros [=]|].
    destruct (dismiss_button pg (id r)); [by intros [=]|].
    by intros [= <-].
  - by intros [= <-].
Qed.

Lemma active_item_rerun pg current_time now i p p' :
  active_item iso pg current_time now i p = (p', Rerun) →
  (∀ r, reminders (now_world p) !! i = Some r → is_active r) →
  Forall2 (rtc transition) (reminders (now_world p)) (reminders (now_world p')).
Proof.
  unfold active_item. intros Hrun Hact.
  destruct (reminders (now_world p) !! i) as [r|] eqn:Hi; [|by injection Hrun].
  pose proof (become_due_ages current_time i r p Hi) as Hages.
  set (p1 := if decide _ then _ else p) in *.
  assert (Hact1 : ∀ r1, reminders (now_world p1) !! i = Some r1 → is_active r1).
  { intros r1 Hr1.
    destruct (Forall2_lookup_ages _ _ _ _ Hages Hr1) as (r0 & Hr0 & Ha).
    rewrite Hi in Hr0. injection Hr0 as <-.
    apply (ages_is_active _ _ Ha). by apply Hact. }
  etrans; [by apply Forall2_ages_transition|].
  destruct (_ && _).
  - injection Hrun as <-. simpl. rewrite reminders_complete.
    apply alter_related; [apply _|]. intros r1 Hr1.
    apply rtc_once. constructor. by apply Hact1.
  - destruct (dismiss_button pg (id r)); [|by injection Hrun].
    injection Hrun as <-. simpl. rewrite reminders_dismiss.
    apply alter_related; [apply _|]. intros r1 Hr1.
    apply rtc_once. constructor.
    destruct (Hact1 r1 Hr1) as [H|H]; rewrite H; discriminate.
Qed.

(** *** One item of the completed list *)

Lemma completed_item_continue pg i p p' :
  completed_item iso pg i p = (p', Continue) → p' = p.
Proof.
  unfold completed_item.
  destruct (reminders (now_world p) !! i) as [r|]; [|by intros [= <-]].
  destruct (negb _); [by intros [=]|].
  destruct (dismiss_completed_button _ _); [by intros [=]|].
  by intros [= <-].
Qed.

Lemma completed_item_rerun pg i p p' :
  completed_item iso pg i p = (p', Rerun) →
  (∀ r, reminders (now_world p) !! i = Some r → status r = STATUS_COMPLETED) →
  Forall2 (rtc transition) (reminders (now_world p)) (reminders (now_world p')).
Proof.
  unfold completed_item. intros Hrun Hc.
  destruct (reminders (now_world p) !! i) as [r|] eqn:Hi; [|by injection Hrun].
  destruct (negb _).
  - injection Hrun as <-. simpl. rewrite reminders_uncomplete.
    apply alter_related; [apply _|]. intros r1 Hr1.
    rewrite Hi in Hr1. injection Hr1 as <-.
    apply rtc_once. constructor. by apply Hc.
  - destruct (dismiss_completed_button _ _); [|by injection Hrun].
    injection Hrun as <-. simpl. rewrite reminders_dismiss.
    apply alter_related; [apply _|]. intros r1 Hr1.
    rewrite Hi in Hr1. injection Hr1 as <-.
    apply rtc_once. constructor. rewrite (Hc r eq_refl). discriminate.
Qed.

(** *** The two loops *)

Lemma for_each_active pg current_time now refs p p' fl :
  for_each (active_item iso pg current_time now) refs p = (p', fl) →
  Forall (λ i, ∀ r, reminders (now_world p) !! i = Some r → is_active r) refs →
  (fl = Continue →
   Forall2 ages (reminders (now_world p)) (reminders (now_world p'))) ∧
  Forall2 (rtc transition) (reminders (now_world p)) (reminders (now_world p')).
Proof.
  revert p. induction refs as [|i refs IH]; intros p Hrun Hact; simpl in Hrun.
  - injection Hrun as <- <-. split; reflexivity.
  - apply Forall_cons in Hact as [Hi Hrefs].
    destruct (active_item iso pg current_time now i p) as [p1 [|]] eqn:Hitem.
    + apply active_item_continue in Hitem.
      destruct (IH p1 Hrun) as [IH1 IH2].
      { eapply Forall_impl; [exact Hrefs|]. intros j Hj r1 Hr1. simpl in Hj.
        destruct (Forall2_lookup_ages _ _ _ _ Hitem Hr1) as (r0 & Hr0 & Ha).
        apply (ages_is_active _ _ Ha). by apply Hj. }
      split.
      * intros Hfl. etrans; [exact Hitem|]. by apply IH1.
      * etrans; [by apply Forall2_ages_transition|]. exact IH2.
    + injection Hrun as <- <-. split; [done|].
      by eapply active_item_rerun.
Qed.

Lemma for_each_completed pg refs p p' fl :
  for_each (completed_item iso pg) refs p = (p', fl) →
  Forall (λ i, ∀ r, reminders (now_world p) !! i = Some r →
                    status r = STATUS_COMPLETED) refs →
  (fl = Continue → p' = p) ∧
  Forall2 (rtc transition) (reminders (now_world p)) (reminders (now_world p')).
Proof.
  revert p. induction refs as [|i refs IH]; intros p Hrun Hc; simpl in Hrun.
  - injection Hrun as <- <-. split; [done|reflexivity].
  - apply Forall_cons in Hc as [Hi Hrefs].
    destruct (completed_item iso pg i p) as [p1 [|]] eqn:Hitem.
    + apply completed_item_continue in Hitem as ->. by apply IH.
    + injection Hrun as <- <-. split; [done|].
      by eapply completed_item_rerun.
Qed.

(** *** A rendering, a run, a session *)

Lemma render_transitions pg current_time now w :
  Forall2 (rtc transition) (reminders w)
    (reminders (after (render iso pg current_time now w))).
Proof.
  unfold render. case_decide; [reflexivity|].
  destruct (for_each (active_item iso pg current_time now) _ _)
    as [p1 fl1] eqn:Hactive.
  apply for_each_active in Hactive as [Hages Htrans]; simpl in *.
  2:{ apply Forall_forall. intros i Hi r Hr.
      apply active_list_elem_of in Hi as (r' & Hr' & Ha). congruence. }
  destruct fl1; [|exact Htrans].
  specialize (Hages eq_refl).
  destruct (for_each (completed_item iso pg) _ p1) as [p2 fl2] eqn:Hcompleted.
  apply for_each_completed in Hcompleted as [_ Htrans2]; simpl.
  - etrans; [exact Htrans|exact Htrans2].
  - apply Forall_forall. intros i Hi r1 Hr1.
    apply completed_list_elem_of in Hi as (r & Hr & Hc).
    destruct (Forall2_lookup_ages _ _ _ _ Hages Hr1) as (r0 & Hr0 & Ha).
    apply (ages_completed _ _ Ha). congruence.
Qed.

Lemma calculate_due_time_reminders now value unit w :
  reminders (calculate_due_time now value unit w).2 = reminders w.
Proof. unfold calculate_due_time. by repeat case_decide. Qed.

Lemma reminders_add_reminder now now' uuid description value unit w :
  reminders (add_reminder iso now now' uuid description value unit w)
  = (reminders w ++
     [Reminder uuid description (calculate_due_time now value unit w).1 now'
        STATUS_PENDING None])%list.
Proof.
  unfold add_reminder.
  pose proof (calculate_due_time_reminders now value unit w) as E.
  destruct (calculate_due_time now value unit w) as [due w1]. simpl in *.
  by rewrite reminders_save, E.
Qed.

Global Instance continues_refl : Reflexive continues.
Proof. intros l. exists []. split; [done|]. rewrite app_nil_r. reflexivity. Qed.

Global Instance continues_trans : Transitive continues.
Proof.
  intros l1 l2 l3 (new1 & Hnew1 & H12) (new2 & Hnew2 & H23).
  exists (new1 ++ new2)%list. split; [by apply Forall_app|].
  rewrite app_assoc. etrans; [|exact H23].
  apply Forall2_app; [exact H12|reflexivity].
Qed.

Lemma script_run_continues inp w :
  continues (reminders w) (reminders (after (script_run iso inp w))).
Proof.
  unfold script_run. destruct (_ && _); simpl.
  - rewrite reminders_add_reminder. eexists [_]. split; [|reflexivity].
    by repeat constructor.
  - exists []. split; [done|]. rewrite app_nil_r. apply render_transitions.
Qed.

Lemma session_continues w w' :
  rtc (step iso) w w' → continues (reminders w) (reminders w').
Proof.
  induction 1 as [|w1 w2 w3 [inp ->] _ IH]; [reflexivity|].
  etrans; [apply script_run_continues|exact IH].
Qed.

Lemma continues_lookup l l' i r :
  continues l l' → l !! i = Some r →
  ∃ r', l' !! i = Some r' ∧ rtc transition r r'.
Proof.
  intros (new & _ & H) Hi.
  apply (Forall2_lookup_l _ _ _ i r H). by apply lookup_app_l_Some.
Qed.

Lemma continues_Forall (P : reminder → Prop) l l' :
  (∀ r, newly_added r → P r) →
  (∀ r r', transition r r' → P r → P r') →
  continues l l' → Forall P l → Forall P l'.
Proof.
  intros Hnew Htrans (new & Hn & H) Hl.
  assert (Hall : Forall P (l ++ new)).
  { apply Forall_app. split; [done|]. eapply Forall_impl; [exact Hn|done]. }
  clear Hl Hn. induction H as [|r r' k k' Hr _ IH]; [done|].
  apply Forall_cons in Hall as [HP Hk]. constructor; [|by apply IH].
  clear IH Hk. induction Hr; eauto.
Qed.

(** *** What a transition keeps *)

Lemma transition_fields r r' :
  transition r r' →
  id r' = id r ∧ task r' = task r ∧ due_time r' = due_time r ∧
  created_at r' = created_at r.
Proof. by destruct 1. Qed.

Lemma transitions_fields r r' :
  rtc transition r r' →
  id r' = id r ∧ task r' = task r ∧ due_time r' = due_time r ∧
  created_at r' = created_at r.
Proof.
  induction 1 as [|r1 r2 r3 H12 _ IH]; [done|].
  apply transition_fields in H12. intuition congruence.
Qed.

Lemma transition_not_dismissed r r' : transition r r' → status r ≠ STATUS_DISMISSED.
Proof.
  destruct 1 as [r H|r now [H|H]|r H|r H]; try done; rewrite H; discriminate.
Qed.

Lemma transitions_dismissed r r' :
  rtc transition r r' → status r = STATUS_DISMISSED → r' = r.
Proof.
  destruct 1 as [|r1 r2 r3 H12 _]; [done|].
  intros Hd. by apply transition_not_dismissed in H12.
Qed.

Lemma transition_consistent r r' :
  transition r r' → completed_at_consistent r → completed_at_consistent r'.
Proof.
  unfold completed_at_consistent, completed_at_iff_completed.
  destruct 1 as [r H|r now [H|H]|r H|r H]; simpl; intros Hc Hnd.
  - split; [|discriminate]. intros Hs. apply Hc in Hs; congruence.
  - split; eauto.
  - split; eauto.
  - split; [by intros [? [=]]|discriminate].
  - done.
Qed.

Lemma transitions_consistent r r' :
  rtc transition r r' → completed_at_consistent r → completed_at_consistent r'.
Proof. induction 1; eauto using transition_consistent. Qed.

(** *** The operations of the specification are runs of the script *)

Lemma evaluate_step now w : step iso w (after (evaluate iso now w)).
Proof. by exists (run_at now untouched). Qed.

(** *** Properties of the state machine *)

(** C9.  A dismissed reminder stays as it is, at its place in the session
    list, through every sequence of runs of the script, whatever is
    submitted, ticked or pressed in them and at whatever times they are
    evaluated. *)
Theorem dismissed_is_terminal (w w' : world) (i : nat) (r : reminder) :
  rtc (step iso) w w' →
  reminders w !! i = Some r →
  status r = STATUS_DISMISSED →
  reminders w' !! i = Some r.
Proof.
  intros Hrun Hi Hd.
  destruct (continues_lookup _ _ _ _ (session_continues _ _ Hrun) Hi)
    as (r' & Hr' & Htrans).
  by rewrite (transitions_dismissed _ _ Htrans Hd) in Hr'.
Qed.

(** The two "dismiss" buttons run [dismiss] on the reminder they belong to:
    in the active list after the automatic transition of that item, when its
    box is not ticked; in the completed list when its box is still ticked. *)
Lemma active_item_dismiss pg current_time now i p r :
  reminders (now_world p) !! i = Some r →
  complete_checkbox pg (id r) = false →
  dismiss_button pg (id r) = true →
  let p1 := if decide (due_time r - current_time ≤ 0 ∧ status r = STATUS_PENDING)
            then become_due iso i r p else p in
  active_item iso pg current_time now i p
  = (Pass (dismiss iso i (now_world p1)) (due_notifications_this_cycle p1), Rerun).
Proof. intros Hi Hc Hd. unfold active_item. by rewrite Hi, Hc, Hd. Qed.

Lemma completed_item_dismiss pg i p r :
  reminders (now_world p) !! i = Some r →
  uncomplete_checkbox pg (id r) = true →
  dismiss_completed_button pg (id r) = true →
  completed_item iso pg i p
  = (Pass (dismiss iso i (now_world p)) (due_notifications_this_cycle p), Rerun).
Proof. intros Hi Hc Hd. unfold completed_item. by rewrite Hi, Hc, Hd. Qed.

(** C10.  The two statements of a "dismiss" button set the status of the
    reminder they are run on to dismissed and change nothing else: its id,
    task, due time, creation time and [completed_at] are kept (a completed
    reminder keeps its completion time), and so is every other reminder. *)
Theorem dismiss_frame (i j : nat) (w : world) (r : reminder) :
  reminders w !! j = Some r →
  length (reminders (dismiss iso i w)) = length (reminders w) ∧
  ∃ r', reminders (dismiss iso i w) !! j = Some r' ∧
        id r' = id r ∧ task r' = task r ∧ due_time r' = due_time r ∧
        created_at r' = created_at r ∧ completed_at r' = completed_at r ∧
        (j = i → status r' = STATUS_DISMISSED) ∧
        (j ≠ i → r' = r).
Proof.
  intros Hj. rewrite reminders_dismiss, length_alter. split; [done|].
  destruct (decide (i = j)) as [->|Hne].
  - exists (set_status STATUS_DISMISSED r).
    rewrite list_lookup_alter_eq, Hj. by repeat split.
  - exists r. rewrite list_lookup_alter_ne by done.
    repeat split; try done.
Qed.

(** C3 (as amended).  Through every sequence of runs of the script,
    [completed_at] is present if and only if the status is completed for
    every reminder that is not dismissed: the invariant holds for what "add"
    appends and is kept by complete, uncomplete, dismiss and the automatic
    transition.  A dismissed reminder keeps the [completed_at] it had. *)
Theorem completed_at_consistent_kept (w w' : world) :
  rtc (step iso) w w' →
  Forall completed_at_consistent (reminders w) →
  Forall completed_at_consistent (reminders w').
Proof.
  intros Hrun. apply continues_Forall; [| |by apply session_continues].
  - intros r [Hs Hc] _. unfold completed_at_iff_completed. rewrite Hs, Hc.
    split; [by intros [? [=]]|discriminate].
  - apply transition_consistent.
Qed.

(** The form never asks for less than one second. *)
Lemma offset_at_least_a_second (f : form) : timedelta.seconds 1 ≤ offset f.
Proof.
  unfold offset, timedelta.seconds, timedelta.minutes, timedelta.hours,
    timedelta.days, usec.
  destruct (time_unit f); lia.
Qed.

(** C8 (as amended).  A reminder that a submitted form adds has the due time
    [clock + offset], where [clock] is the reading of line 18, and the
    creation time read afterwards at line 125; when that second reading is
    at most [offset] later than the first, the due time is not before the
    creation time.  Both fields are then the same after every further
    sequence of runs. *)
Theorem due_time_not_before_created_at (inp : run_input) (w w' : world) :
  submitted (the_form inp) = true →
  task_description (the_form inp) ≠ "" →
  clock2 inp ≤ clock1 inp + offset (the_form inp) →
  rtc (step iso) (after (script_run iso inp w)) w' →
  ∃ r r',
    reminders (after (script_run iso inp w)) !! length (reminders w) = Some r ∧
    due_time r = clock1 inp + offset (the_form inp) ∧
    created_at r = clock2 inp ∧
    reminders w' !! length (reminders w) = Some r' ∧
    due_time r' = due_time r ∧ created_at r' = created_at r ∧
    created_at r' ≤ due_time r'.
Proof.
  intros Hsub Htask Hclock Hrun.
  assert (Hnew : ∃ r,
    reminders (after (script_run iso inp w)) !! length (reminders w) = Some r ∧
    due_time r = clock1 inp + offset (the_form inp) ∧ created_at r = clock2 inp).
  { unfold script_run. rewrite Hsub, bool_decide_true by done. simpl.
    rewrite reminders_add_reminder. eexists. split; [apply list_lookup_middle; done|].
    simpl. split; [|done]. unfold offset, calculate_due_time.
    by destruct (time_unit (the_form inp)). }
  destruct Hnew as (r & Hr & Hdue & Hcreated).
  destruct (continues_lookup _ _ _ _ (session_continues _ _ Hrun) Hr)
    as (r' & Hr' & Htrans).
  apply transitions_fields in Htrans as (_ & _ & Hd & Hc).
  exists r, r'. repeat split; try done. lia.
Qed.

(** C2 (as amended).  On a unit that is none of the four,
    [calculate_due_time] shows "Unknown time unit: ..." and returns its
    clock reading; the "add" handler does not reject the input: it appends
    a pending reminder due at that reading and saves the list.  The unit
    selector of the form offers the four recognized units only. *)
Theorem unknown_unit_is_added (now now' : datetime) (uuid description : string)
    (value : Z) (unit : string) (w : world) :
  ¬ recognized unit →
  calculate_due_time now value unit w
  = (now, st_error ("Unknown time unit: " +:+ unit) w) ∧
  add_reminder iso now now' uuid description value unit w
  = save iso
      (set_reminders
         (reminders w ++ [Reminder uuid description now now' STATUS_PENDING None])
         (st_error ("Unknown time unit: " +:+ unit) w)) ∧
  reminders (add_reminder iso now now' uuid description value unit w)
  = (reminders w ++ [Reminder uuid description now now' STATUS_PENDING None])%list ∧
  (∀ u, recognized (unit_str u)).
Proof.
  intros Hunit.
  assert (E : calculate_due_time now value unit w
              = (now, st_error ("Unknown time unit: " +:+ unit) w)).
  { unfold calculate_due_time, recognized in *.
    repeat case_decide; try done; exfalso; intuition. }
  split; [exact E|]. split; [|split].
  - unfold add_reminder. by rewrite E.
  - rewrite reminders_add_reminder. by rewrite E.
  - intros []; unfold recognized; simpl; auto.
Qed.

(** *** Evaluation: a rendering with no widget touched *)

Lemma active_item_untouched current_time now i p :
  active_item iso untouched current_time now i p
  = (match reminders (now_world p) !! i with
     | Some r =>
         if decide (due_time r - current_time ≤ 0 ∧ status r = STATUS_PENDING)
         then become_due iso i r p else p
     | None => p
     end, Continue).
Proof. unfold active_item. by destruct (reminders (now_world p) !! i). Qed.

Lemma for_each_completed_untouched refs p :
  for_each (completed_item iso untouched) refs p = (p, Continue).
Proof.
  induction refs as [|i refs IH]; simpl; [done|].
  unfold completed_item at 1. by destruct (reminders (now_world p) !! i).
Qed.

Lemma for_each_active_untouched_flow current_time now refs p :
  (for_each (active_item iso untouched current_time now) refs p).2 = Continue.
Proof.
  revert p. induction refs as [|i refs IH]; intros p; simpl; [done|].
  rewrite active_item_untouched. apply IH.
Qed.

(** Nothing overdue and pending among the references: the loop does
    nothing. *)
Lemma for_each_active_untouched_idle current_time now refs p :
  Forall (λ i, ∀ r, reminders (now_world p) !! i = Some r →
                    ¬ overdue_pending current_time r) refs →
  for_each (active_item iso untouched current_time now) refs p = (p, Continue).
Proof.
  induction 1 as [|i refs Hi _ IH]; simpl; [done|].
  rewrite active_item_untouched.
  destruct (reminders (now_world p) !! i) as [r|] eqn:Hr; [|exact IH].
  rewrite decide_False by (by apply Hi). exact IH.
Qed.

(** A reminder that is not overdue and pending is left alone and raises no
    notification. *)
Lemma for_each_active_untouched_quiet current_time now i refs p :
  (∀ r, reminders (now_world p) !! i = Some r → ¬ overdue_pending current_time r) →
  let p' := (for_each (active_item iso untouched current_time now) refs p).1 in
  filter (λ n, about n = i) (due_notifications_this_cycle p')
  = filter (λ n, about n = i) (due_notifications_this_cycle p) ∧
  reminders (now_world p') !! i = reminders (now_world p) !! i.
Proof.
  revert p. induction refs as [|j refs IH]; intros p Hi; simpl; [done|].
  rewrite active_item_untouched.
  destruct (reminders (now_world p) !! j) as [r|] eqn:Hr; [|by apply IH].
  case_decide as Hc; [|by apply IH].
  assert (Hne : j ≠ i) by (intros ->; by apply (Hi r)).
  assert (Hl : reminders (now_world (become_due iso j r p)) !! i
               = reminders (now_world p) !! i).
  { rewrite reminders_become_due. by apply list_lookup_alter_ne. }
  destruct (IH (become_due iso j r p)) as [IH1 IH2].
  { intros r0. rewrite Hl. apply Hi. }
  simpl in *. rewrite IH1, IH2, Hl. split; [|done].
  rewrite filter_app, filter_cons_False, filter_nil, app_nil_r by done. done.
Qed.

(** A pending reminder that is overdue and in the list becomes due and
    raises one notification. *)
Lemma for_each_active_untouched_notifies current_time now i r refs p :
  i ∈ refs →
  reminders (now_world p) !! i = Some r →
  overdue_pending current_time r →
  let p' := (for_each (active_item iso untouched current_time now) refs p).1 in
  filter (λ n, about n = i) (due_notifications_this_cycle p')
  = (filter (λ n, about n = i) (due_notifications_this_cycle p)
     ++ [Notification i (task r)])%list ∧
  reminders (now_world p') !! i = Some (set_status STATUS_DUE r).
Proof.
  revert p. induction refs as [|j refs IH]; intros p Hin Hi Hover; simpl.
  { by apply elem_of_nil in Hin. }
  rewrite active_item_untouched.
  destruct (decide (j = i)) as [->|Hne].
  - rewrite Hi, decide_True by done.
    assert (Hl : reminders (now_world (become_due iso i r p)) !! i
                 = Some (set_status STATUS_DUE r)).
    { by rewrite reminders_become_due, list_lookup_alter_eq, Hi. }
    destruct (for_each_active_untouched_quiet current_time now i refs
                (become_due iso i r p)) as [Q1 Q2].
    { intros r0. rewrite Hl. intros [= <-] [_ Hs]. done. }
    simpl in *. rewrite Q1, Q2, Hl. split; [|done].
    by rewrite filter_app, filter_cons_True, filter_nil.
  - apply elem_of_cons in Hin as [->|Hin]; [done|].
    destruct (reminders (now_world p) !! j) as [rj|] eqn:Hrj; [|by apply IH].
    case_decide as Hc; [|by apply IH].
    assert (Hl : reminders (now_world (become_due iso j rj p)) !! i = Some r).
    { rewrite reminders_become_due, <- Hi. by apply list_lookup_alter_ne. }
    destruct (IH (become_due iso j rj p) Hin Hl Hover) as [IH1 IH2].
    simpl in *. rewrite IH1, IH2. split; [|done].
    rewrite filter_app, filter_cons_False, filter_nil, app_nil_r by done. done.
Qed.

(** After the loop no reference of the list is overdue and pending. *)
Lemma for_each_active_untouched_settled current_time now refs p i r' :
  i ∈ refs →
  reminders (now_world
    (for_each (active_item iso untouched current_time now) refs p).1) !! i
  = Some r' →
  ¬ overdue_pending current_time r'.
Proof.
  intros Hin Hr'.
  destruct (reminders (now_world p) !! i) as [r|] eqn:Hr.
  - destruct (decide (overdue_pending current_time r)) as [Hover|Hnot].
    + destruct (for_each_active_untouched_notifies current_time now i r refs p
                  Hin Hr Hover) as [_ E].
      simpl in E. rewrite E in Hr'. injection Hr' as <-. by intros [_ ?].
    + destruct (for_each_active_untouched_quiet current_time now i refs p)
        as [_ E].
      { intros r0. rewrite Hr. by intros [= <-]. }
      simpl in E. rewrite E, Hr in Hr'. by injection Hr' as <-.
  - destruct (for_each_active_untouched_quiet current_time now i refs p)
      as [_ E].
    { intros r0. by rewrite Hr. }
    simpl in E. rewrite E, Hr in Hr'. done.
Qed.

(** [evaluate] unfolded: the active loop runs to its end, the completed loop
    does nothing. *)
Lemma evaluate_unfold now w :
  reminders w ≠ [] →
  let p := (for_each (active_item iso untouched now now)
              (active_list (reminders w)) (Pass w [])).1 in
  evaluate iso now w
  = Rendering (now_world p) (active_list (reminders w))
      (completed_list (reminders w)) (due_notifications_this_cycle p) Continue.
Proof.
  intros Hne. unfold evaluate, render. rewrite decide_False by done.
  pose proof (for_each_active_untouched_flow now now
                (active_list (reminders w)) (Pass w [])) as Hfl.
  destruct (for_each (active_item iso untouched now now) _ _) as [p fl].
  simpl in *. subst fl. by rewrite for_each_completed_untouched.
Qed.

Lemma evaluate_empty now w :
  reminders w = [] → evaluate iso now w = Rendering w [] [] [] Continue.
Proof. intros H. unfold evaluate, render. by rewrite decide_True. Qed.

Lemma evaluate_ages now w :
  Forall2 ages (reminders w) (reminders (after (evaluate iso now w))).
Proof.
  destruct (decide (reminders w = [])) as [He|Hne].
  - rewrite evaluate_empty by done. reflexivity.
  - rewrite evaluate_unfold by done. simpl.
    destruct (for_each (active_item iso untouched now now)
                (active_list (reminders w)) (Pass w [])) as [p fl] eqn:Hrun.
    pose proof (for_each_active_untouched_flow now now
                  (active_list (reminders w)) (Pass w [])) as Hfl.
    rewrite Hrun in Hfl. simpl in Hfl. subst fl.
    apply for_each_active in Hrun as [Hages _]; [by apply Hages|].
    apply Forall_forall. intros i Hi r Hr. simpl in Hr.
    apply active_list_elem_of in Hi as (r' & Hr' & Ha). congruence.
Qed.

(** *** The lists do not depend on what the automatic transition changes *)

Lemma sorted_ext {A} (key key' : A → Z) reverse l :
  (∀ x, key x = key' x) → sorted key reverse l = sorted key' reverse l.
Proof.
  intros Hk. induction l as [|x l IH]; simpl; [done|]. rewrite IH.
  generalize (sorted key' reverse l). intros k.
  induction k as [|y k IHk]; simpl; [done|].
  unfold precedes. by rewrite !Hk, IHk.
Qed.

Lemma classify_ages i l l' a c :
  Forall2 ages l l' → classify i l a c = classify i l' a c.
Proof.
  intros H. revert i a c. induction H as [|r r' l l' Hr _ IH]; intros i a c; [done|].
  simpl. pose proof (ages_dismissed _ _ Hr). pose proof (ages_completed _ _ Hr).
  repeat case_decide; try (exfalso; intuition congruence); apply IH.
Qed.

Lemma due_key_ages l l' i : Forall2 ages l l' → due_key l i = due_key l' i.
Proof.
  intros H. unfold due_key.
  destruct (l !! i) as [r|] eqn:Hr.
  - destruct (Forall2_lookup_l _ _ _ _ _ H Hr) as (r' & -> & Ha). simpl.
    apply ages_fields in Ha. symmetry. tauto.
  - apply Forall2_length in H. apply lookup_ge_None in Hr.
    rewrite (proj2 (lookup_ge_None l' i)); [done|lia].
Qed.

Lemma completed_key_ages l l' i :
  Forall2 ages l l' → completed_key l i = completed_key l' i.
Proof.
  intros H. unfold completed_key.
  destruct (l !! i) as [r|] eqn:Hr.
  - destruct (Forall2_lookup_l _ _ _ _ _ H Hr) as (r' & -> & Ha). simpl.
    apply ages_fields in Ha as (_ & _ & _ & -> & ->). done.
  - apply Forall2_length in H. apply lookup_ge_None in Hr.
    rewrite (proj2 (lookup_ge_None l' i)); [done|lia].
Qed.

Lemma active_list_ages l l' : Forall2 ages l l' → active_list l' = active_list l.
Proof.
  intros H. unfold active_list. rewrite <- (classify_ages _ _ _ _ _ H).
  apply sorted_ext. intros i. symmetry. by apply due_key_ages.
Qed.

Lemma completed_list_ages l l' :
  Forall2 ages l l' → completed_list l' = completed_list l.
Proof.
  intros H. unfold completed_list. rewrite <- (classify_ages _ _ _ _ _ H).
  apply sorted_ext. intros i. symmetry. by apply completed_key_ages.
Qed.

(** C4.  A second evaluation at the same [now] leaves the world as the
    first one left it (session list, file and messages), shows the same
    active and completed lists, and raises no notification. *)
Theorem evaluate_twice (now : datetime) (w : world) :
  let first := evaluate iso now w in
  let second := evaluate iso now (after first) in
  after second = after first ∧
  sorted_active_reminders second = sorted_active_reminders first ∧
  sorted_completed_reminders second = sorted_completed_reminders first ∧
  shown (reminders (after second)) (sorted_active_reminders second)
  = shown (reminders (after first)) (sorted_active_reminders first) ∧
  shown (reminders (after second)) (sorted_completed_reminders second)
  = shown (reminders (after first)) (sorted_completed_reminders first) ∧
  became_due second = [].
Proof.
  intros first second.
  assert (Hsecond : second
    = Rendering (after first) (sorted_active_reminders first)
        (sorted_completed_reminders first) [] Continue).
  { subst second. pose proof (evaluate_ages now w) as Hages. fold first in Hages.
    destruct (decide (reminders w = [])) as [He|Hne].
    - subst first. rewrite (evaluate_empty now w He). simpl.
      by rewrite (evaluate_empty now w He).
    - assert (Hne1 : reminders (after first) ≠ []).
      { intros E. rewrite E in Hages. by apply Forall2_nil_inv_r in Hages. }
      rewrite (evaluate_unfold now (after first) Hne1).
      rewrite (active_list_ages _ _ Hages), (completed_list_ages _ _ Hages).
      assert (Hlists : sorted_active_reminders first = active_list (reminders w)
                     ∧ sorted_completed_reminders first
                       = completed_list (reminders w)).
      { subst first. by rewrite (evaluate_unfold now w Hne). }
      destruct Hlists as [-> ->].
      rewrite for_each_active_untouched_idle; [done|].
      apply Forall_forall. intros i Hi r' Hr'. simpl in Hr'.
      subst first. rewrite (evaluate_unfold now w Hne) in Hr'. simpl in Hr'.
      by eapply for_each_active_untouched_settled. }
  rewrite Hsecond. simpl. done.
Qed.

(** *** Notifications of an evaluation *)

Lemma evaluate_quiet now w i :
  (∀ r, reminders w !! i = Some r → ¬ overdue_pending now r) →
  filter (λ n, about n = i) (became_due (evaluate iso now w)) = [] ∧
  reminders (after (evaluate iso now w)) !! i = reminders w !! i.
Proof.
  intros Hi. destruct (decide (reminders w = [])) as [He|Hne].
  - by rewrite evaluate_empty.
  - rewrite evaluate_unfold by done. simpl.
    by apply (for_each_active_untouched_quiet now now i _ (Pass w [])).
Qed.

Lemma evaluate_notifies now w i r :
  reminders w !! i = Some r →
  overdue_pending now r →
  filter (λ n, about n = i) (became_due (evaluate iso now w))
  = [Notification i (task r)] ∧
  reminders (after (evaluate iso now w)) !! i = Some (set_status STATUS_DUE r).
Proof.
  intros Hi Hover.
  assert (Hne : reminders w ≠ []) by (intros E; by rewrite E in Hi).
  rewrite evaluate_unfold by done. simpl.
  apply (for_each_active_untouched_notifies now now i r _ (Pass w [])); try done.
  apply active_list_elem_of. exists r. split; [done|]. left. by destruct Hover.
Qed.

Lemma times_notified_cons i out outs :
  times_notified i (out :: outs)
  = (length (filter (λ n, about n = i) (became_due out))
     + times_notified i outs)%nat.
Proof. unfold times_notified. simpl. by rewrite filter_app, length_app. Qed.

(** A reminder that is not pending is never notified about, at whatever
    times the evaluations are made. *)
Lemma evaluations_quiet nows w i r :
  reminders w !! i = Some r →
  status r ≠ STATUS_PENDING →
  times_notified i (evaluations iso nows w) = 0%nat.
Proof.
  revert w. induction nows as [|now nows IH]; intros w Hi Hs; [done|].
  simpl. rewrite times_notified_cons.
  destruct (evaluate_quiet now w i) as [E1 E2].
  { intros r0. rewrite Hi. by intros [= <-] [_ ?]. }
  rewrite E1. simpl. apply IH; [|done]. by rewrite E2.
Qed.

(** C5.  A pending reminder whose due time is at or before [now] is due
    after [evaluate(now)], which raises one notification about it; and
    however many evaluations follow, at the same or at later times (at any
    times, in fact), there is exactly one notification about it in all of
    them together. *)
Theorem becomes_due_once (now : datetime) (nows : list datetime) (w : world)
    (i : nat) (r : reminder) :
  reminders w !! i = Some r →
  status r = STATUS_PENDING →
  due_time r ≤ now →
  reminders (after (evaluate iso now w)) !! i = Some (set_status STATUS_DUE r) ∧
  filter (λ n, about n = i) (became_due (evaluate iso now w))
  = [Notification i (task r)] ∧
  times_notified i (evaluations iso (now :: nows) w) = 1%nat.
Proof.
  intros Hi Hs Hdue.
  destruct (evaluate_notifies now w i r Hi) as [E1 E2].
  { split; [lia|done]. }
  split; [done|]. split; [done|].
  simpl. rewrite times_notified_cons, E1. simpl.
  by rewrite (evaluations_quiet nows _ i (set_status STATUS_DUE r)).
Qed.

End Lifecycle.

(** ** Closed instances

    The statements above at concrete inputs, with [decimal_stamp] and
    [parse_decimal_stamp] for the two library functions. *)

Lemma parse_decimal_stamp_decimal_stamp (d : datetime) :
  parse_decimal_stamp (decimal_stamp d) = Some d.
Proof.
  unfold parse_decimal_stamp, decimal_stamp.
  rewrite NilZero.isi.
  - simpl. by rewrite DecimalZ.of_to.
  - destruct d; simpl; try discriminate.
    intros [= H]. by apply DecimalPos.Unsigned.to_uint_nonnil in H.
  - destruct d; simpl; try discriminate.
    intros [= H]. by apply DecimalPos.Unsigned.to_uint_nonnil in H.
Qed.

Lemma decimal_stamp_not_empty (d : datetime) : decimal_stamp d ≠ "".
Proof.
  intros E. pose proof (parse_decimal_stamp_decimal_stamp d) as H.
  rewrite E in H. discriminate.
Qed.

Lemma save_load_round_trip_witness :
  writable fresh_world = true ∧
  deserialize parse_decimal_stamp (serialize decimal_stamp (to_dict milk))
  = Some (to_dict milk) ∧
  load_reminders_from_file parse_decimal_stamp
    (save_reminders_to_file decimal_stamp [milk; call; old] fresh_world)
  = Some (to_dict <$> [milk; call; old],
          save_reminders_to_file decimal_stamp [milk; call; old] fresh_world).
Proof.
  split; [reflexivity|].
  exact (save_load_round_trip decimal_stamp parse_decimal_stamp milk
           [milk; call; old] fresh_world
           parse_decimal_stamp_decimal_stamp decimal_stamp_not_empty eq_refl).
Defined.

(** In [sample_world] at second 20 with every widget changed, the run
    completes "Buy milk" (first of the active list) and stops; the dismissed
    reminder is where and what it was. *)
Lemma dismissed_is_terminal_witness :
  reminders sample_world !! 2%nat = Some old ∧
  status old = STATUS_DISMISSED ∧
  reminders (after (script_run decimal_stamp
                      (run_at (timedelta.seconds 20) all_touched) sample_world))
    !! 2%nat = Some old.
Proof.
  split; [reflexivity|]. split; [reflexivity|].
  apply (dismissed_is_terminal decimal_stamp sample_world _ 2 old).
  - apply rtc_once. exists (run_at (timedelta.seconds 20) all_touched). reflexivity.
  - reflexivity.
  - reflexivity.
Defined.

Lemma dismiss_frame_witness :
  reminders sample_world !! 1%nat = Some call ∧
  length (reminders (dismiss decimal_stamp 1 sample_world)) = 3%nat ∧
  ∃ r', reminders (dismiss decimal_stamp 1 sample_world) !! 1%nat = Some r' ∧
        id r' = "id-2" ∧ task r' = "Call Ann" ∧
        due_time r' = timedelta.seconds 5 ∧ created_at r' = 0 ∧
        completed_at r' = Some (timedelta.seconds 7) ∧
        (1%nat = 1%nat → status r' = STATUS_DISMISSED) ∧
        (1%nat ≠ 1%nat → r' = call).
Proof.
  split; [reflexivity|].
  exact (dismiss_frame decimal_stamp 1 1 sample_world call eq_refl).
Defined.

Lemma sample_world_consistent :
  Forall completed_at_consistent (reminders sample_world).
Proof.
  unfold completed_at_consistent, completed_at_iff_completed.
  repeat constructor; simpl; try done; try (by intros [? [=]]); eauto.
Qed.

Lemma completed_at_consistent_kept_witness :
  Forall completed_at_consistent (reminders sample_world) ∧
  Forall completed_at_consistent
    (reminders (after (script_run decimal_stamp
                         (run_at (timedelta.seconds 20) dismiss_completed_pressed)
                         sample_world))).
Proof.
  split; [exact sample_world_consistent|].
  apply (completed_at_consistent_kept decimal_stamp sample_world).
  - apply rtc_once.
    exists (run_at (timedelta.seconds 20) dismiss_completed_pressed). reflexivity.
  - exact sample_world_consistent.
Defined.

(** C3, as stated, fails.  In [sample_world] every reminder has
    [completed_at] exactly when it is completed.  A run in which the
    "dismiss" button of the completed "Call Ann" is pressed leaves it
    dismissed with its [completed_at] still set. *)
Lemma dismissing_completed_keeps_completed_at :
  Forall completed_at_iff_completed (reminders sample_world) ∧
  reminders (after (script_run decimal_stamp
                      (run_at (timedelta.seconds 3) dismiss_completed_pressed)
                      sample_world))
  = [milk;
     Reminder "id-2" "Call Ann" (timedelta.seconds 5) 0 STATUS_DISMISSED
       (Some (timedelta.seconds 7));
     old] ∧
  ¬ Forall completed_at_iff_completed
      (reminders (after (script_run decimal_stamp
                           (run_at (timedelta.seconds 3) dismiss_completed_pressed)
                           sample_world))).
Proof.
  split; [|split].
  - unfold completed_at_iff_completed.
    repeat constructor; simpl; try done; try (by intros [? [=]]); eauto.
  - vm_compute. reflexivity.
  - intros H. apply Forall_cons in H as [_ H]. apply Forall_cons in H as [H _].
    unfold completed_at_iff_completed in H. vm_compute in H.
    destruct H as [H _]. specialize (H (ex_intro _ _ eq_refl)). discriminate.
Qed.

Lemma due_time_not_before_created_at_witness :
  ∃ r r',
    reminders (after (script_run decimal_stamp
                        (submit (Form "Buy milk" 10 Seconds true) "id-1" 0 3)
                        fresh_world)) !! 0%nat = Some r ∧
    due_time r = 0 + timedelta.seconds 10 ∧
    created_at r = 3 ∧
    reminders (after (script_run decimal_stamp
                        (run_at (timedelta.seconds 20) untouched)
                        (after (script_run decimal_stamp
                                  (submit (Form "Buy milk" 10 Seconds true) "id-1" 0 3)
                                  fresh_world)))) !! 0%nat = Some r' ∧
    due_time r' = due_time r ∧ created_at r' = created_at r ∧
    created_at r' ≤ due_time r'.
Proof.
  apply (due_time_not_before_created_at decimal_stamp
           (submit (Form "Buy milk" 10 Seconds true) "id-1" 0 3) fresh_world).
  - reflexivity.
  - discriminate.
  - vm_compute. discriminate.
  - apply rtc_once. exists (run_at (timedelta.seconds 20) untouched). reflexivity.
Defined.

(** C8, as stated, fails.  A form asking for one second is submitted; the
    clock reads 0 inside [calculate_due_time] and two seconds later at line
    125: the reminder is due one second before it was created. *)
Lemma due_before_created_on_slow_clock :
  reminders (after (script_run decimal_stamp
                      (submit (Form "Buy milk" 1 Seconds true) "id-1" 0
                         (timedelta.seconds 2))
                      fresh_world))
  = [Reminder "id-1" "Buy milk" 1000000 2000000 STATUS_PENDING None] ∧
  1000000 < 2000000.
Proof. split; [vm_compute; reflexivity|lia]. Qed.

Lemma weeks_not_recognized : ¬ recognized "weeks".
Proof. unfold recognized. intros [H|[H|[H|H]]]; discriminate H. Qed.

Lemma unknown_unit_is_added_witness :
  ¬ recognized "weeks" ∧
  reminders (add_reminder decimal_stamp 5 6 "id-1" "Buy milk" 10 "weeks" fresh_world)
  = [Reminder "id-1" "Buy milk" 5 6 STATUS_PENDING None].
Proof.
  split; [exact weeks_not_recognized|].
  exact (proj1 (proj2 (proj2 (unknown_unit_is_added decimal_stamp 5 6 "id-1"
           "Buy milk" 10 "weeks" fresh_world weeks_not_recognized)))).
Defined.

(** C2, as stated, fails.  The "add" handler run on the unit "weeks" shows
    the error and still appends a reminder, due at the clock reading, and
    writes the file. *)
Lemma add_with_unknown_unit_creates_reminder :
  add_reminder decimal_stamp 5 6 "id-1" "Buy milk" 10 "weeks" fresh_world
  = World [Reminder "id-1" "Buy milk" 5 6 STATUS_PENDING None]
      (Document
         [serialize decimal_stamp
            (to_dict (Reminder "id-1" "Buy milk" 5 6 STATUS_PENDING None))])
      true ["Unknown time unit: weeks"] ∧
  reminders (add_reminder decimal_stamp 5 6 "id-1" "Buy milk" 10 "weeks" fresh_world)
  ≠ reminders fresh_world ∧
  file (add_reminder decimal_stamp 5 6 "id-1" "Buy milk" 10 "weeks" fresh_world)
  ≠ file fresh_world.
Proof. split; [reflexivity|]. split; discriminate. Qed.

Lemma becomes_due_once_witness :
  reminders sample_world !! 0%nat = Some milk ∧
  status milk = STATUS_PENDING ∧
  due_time milk ≤ timedelta.seconds 11 ∧
  reminders (after (evaluate decimal_stamp (timedelta.seconds 11) sample_world))
    !! 0%nat = Some (set_status STATUS_DUE milk) ∧
  filter (λ n, about n = 0%nat)
    (became_due (evaluate decimal_stamp (timedelta.seconds 11) sample_world))
  = [Notification 0 "Buy milk"] ∧
  times_notified 0
    (evaluations decimal_stamp
       [timedelta.seconds 11; timedelta.seconds 11; timedelta.seconds 16]
       sample_world) = 1%nat.
Proof.
  assert (H : due_time milk ≤ timedelta.seconds 11) by (vm_compute; discriminate).
  split; [reflexivity|]. split; [reflexivity|]. split; [exact H|].
  exact (becomes_due_once decimal_stamp (timedelta.seconds 11)
           [timedelta.seconds 11; timedelta.seconds 16] sample_world 0 milk
           eq_refl eq_refl H).
Defined.

Lemma evaluate_twice_witness :
  after (evaluate decimal_stamp (timedelta.seconds 11)
           (after (evaluate decimal_stamp (timedelta.seconds 11) sample_world)))
  = after (evaluate decimal_stamp (timedelta.seconds 11) sample_world) ∧
  became_due
    (evaluate decimal_stamp (timedelta.seconds 11)
       (after (evaluate decimal_stamp (timedelta.seconds 11) sample_world)))
  = [].
Proof.
  pose proof (evaluate_twice decimal_stamp (timedelta.seconds 11) sample_world) as H.
  simpl in H. destruct H as (H1 & _ & _ & _ & _ & H2). split; [exact H1|exact H2].
Defined.

Lemma classification_lists_witness :
  shown (reminders sample_world) (active_list (reminders sample_world))
  ≡ₚ filter is_active (reminders sample_world) ∧
  shown (reminders sample_world) (completed_list (reminders sample_world))
  ≡ₚ filter (λ r, status r = STATUS_COMPLETED) (reminders sample_world).
Proof.
  destruct (classification_lists (reminders sample_world))
    as ((H1 & _) & (H2 & _) & _).
  split; [exact H1|exact H2].
Defined.

(** The scenario of the specification: "Buy milk" due in 10 seconds is
    pending and active at second 0, due and notified once at second 11. *)
Example scenario_buy_milk :
  let w0 := after (script_run decimal_stamp
                     (submit (Form "Buy milk" 10 Seconds true) "id-1" 0 0)
                     fresh_world) in
  let at0 := evaluate decimal_stamp 0 w0 in
  let at11 := evaluate decimal_stamp (timedelta.seconds 11) (after at0) in
  shown (reminders (after at0)) (sorted_active_reminders at0)
  = [Reminder "id-1" "Buy milk" 10000000 0 STATUS_PENDING None] ∧
  became_due at0 = [] ∧
  shown (reminders (after at11)) (sorted_active_reminders at11)
  = [Reminder "id-1" "Buy milk" 10000000 0 STATUS_DUE None] ∧
  became_due at11 = [Notification 0 "Buy milk"].
Proof. vm_compute. done. Qed.

(** * The code around the claims *)

(** ** TimeMath: the overdue branch (lines 34-46) *)


(** ** ReminderStore: dicts of any shape *)

Section StoreEdges.

Variable isoformat : datetime → string.
Variable fromisoformat : string → option datetime.

Lemma serialize_lookup (d : pydict) (k : string) :
  serialize isoformat d !! k =
  if decide (k = "due_time") then
    Some (match get d "due_time" with
          | PDatetime t => PStr (isoformat t) | v => v end)
  else if decide (k = "created_at") then
    Some (match get d "created_at" with
          | PDatetime t => PStr (isoformat t) | v => v end)
  else if decide (k = "completed_at") then
    match d !! "completed_at" with
    | Some (PDatetime t) => Some (PStr (isoformat t))
    | o => o
    end
  else d !! k.
Proof.
  unfold serialize.
  rewrite !get_insert_ne by done.
  assert (G : get d "completed_at" = default PNone (d !! "completed_at")) by done.
  rewrite G. clear G.
  destruct (d !! "completed_at") as [[| |t]|] eqn:E; simpl.
  all: repeat (rewrite lookup_insert; case_decide; subst; try done).
  all: repeat (case_decide; subst; try done).
Qed.

(** X3.  Serializing touches the three timestamp keys only, and leaves no
    datetime under them, whatever the dict holds: a string or [None] stays,
    a missing [due_time] or [created_at] becomes [None]. *)
Lemma serialize_frame (d : pydict) (k : string) :
  (k ∉ time_keys → serialize isoformat d !! k = d !! k) ∧
  (k ∈ time_keys → ∀ t, serialize isoformat d !! k ≠ Some (PDatetime t)) ∧
  is_Some (serialize isoformat d !! "due_time") ∧
  is_Some (serialize isoformat d !! "created_at").
Proof.
  split; [|split; [|split]].
  - intros Hk. rewrite serialize_lookup.
    repeat case_decide; subst; try done; exfalso; apply Hk; unfold time_keys;
      repeat ((by left) || right).
  - intros Hk t. rewrite serialize_lookup.
    repeat case_decide; subst.
    + by destruct (get d "due_time").
    + by destruct (get d "created_at").
    + by destruct (d !! "completed_at") as [[| |?]|].
    + exfalso. unfold time_keys in Hk.
      repeat (apply elem_of_cons in Hk as [->|Hk]; [done|]).
      by apply elem_of_nil in Hk.
  - rewrite serialize_lookup. simpl. eauto.
  - rewrite serialize_lookup. simpl. eauto.
Qed.

(** X4.  Serializing what is already serialized changes nothing. *)
Lemma serialize_idempotent (d : pydict) :
  serialize isoformat (serialize isoformat d) = serialize isoformat d.
Proof.
  apply map_eq. intros k.
  rewrite (serialize_lookup (serialize isoformat d)).
  unfold get. rewrite !serialize_lookup. simpl.
  repeat case_decide; subst; try done.
  - by destruct (get d "due_time").
  - by destruct (get d "created_at").
  - by destruct (d !! "completed_at") as [[| |?]|].
Qed.

(** X6.  A timestamp of the file that [fromisoformat] rejects makes the load
    raise: the [ValueError] is not among the exceptions of line 96, so no
    list, not even the empty one, is returned. *)
Lemma load_raises_on_bad_timestamp (w : world) (doc : list pydict)
    (r : pydict) (k s : string) :
  file w = Document doc →
  r ∈ doc →
  k ∈ time_keys →
  r !! k = Some (PStr s) →
  (k = "completed_at" → s ≠ "") →
  fromisoformat s = None →
  load_reminders_from_file fromisoformat w = None.
Proof.
  intros Hfile Hr Hk Hs Hne Hbad.
  unfold load_reminders_from_file. rewrite Hfile.
  assert (G : get r k = PStr s) by (unfold get; by rewrite Hs).
  assert (Hd : deserialize fromisoformat r = None).
  { unfold deserialize, time_keys in *.
    apply elem_of_cons in Hk as [->|Hk].
    { rewrite G. simpl. by rewrite Hbad. }
    apply elem_of_cons in Hk as [->|Hk].
    { destruct (match get r "due_time" with
                | PStr s0 => PDatetime <$> fromisoformat s0 | v => Some v end);
        simpl; [|done].
      rewrite G. simpl. by rewrite Hbad. }
    apply list_elem_of_singleton in Hk as ->.
    destruct (match get r "due_time" with
              | PStr s0 => PDatetime <$> fromisoformat s0 | v => Some v end);
      simpl; [|done].
    destruct (match get r "created_at" with
              | PStr s0 => PDatetime <$> fromisoformat s0 | v => Some v end);
      simpl; [|done].
    rewrite G. simpl.
    rewrite bool_decide_true by auto. by rewrite Hbad. }
  destruct (mapM (deserialize fromisoformat) doc) as [l|] eqn:E; [|done].
  exfalso. assert (His : is_Some (mapM (deserialize fromisoformat) doc)) by eauto.
  apply mapM_is_Some in His. rewrite Forall_forall in His.
  destruct (His r Hr) as [? Hsome]. simpl in Hsome. congruence.
Qed.

End StoreEdges.

(** ** The file and the messages through the runs of the script *)

Section Disk.

Variable iso : datetime → string.
Variable fromiso : string → option datetime.

(** Every handler ends in a save of the session list it has just changed. *)
Lemma become_due_shape i r p :
  ∃ l, now_world (become_due iso i r p) = save iso (set_reminders l (now_world p)).
Proof. by eexists. Qed.

Lemma complete_shape now i w :
  ∃ l, complete iso now i w = save iso (set_reminders l w).
Proof. by eexists. Qed.

Lemma uncomplete_shape i w : ∃ l, uncomplete iso i w = save iso (set_reminders l w).
Proof. by eexists. Qed.

Lemma dismiss_shape i w : ∃ l, dismiss iso i w = save iso (set_reminders l w).
Proof. by eexists. Qed.

Lemma calculate_due_time_of_form now (f : form) w :
  calculate_due_time now (Z.pos (time_value f)) (unit_str (time_unit f)) w
  = (now + offset f, w).
Proof. unfold calculate_due_time, offset. by destruct (time_unit f). Qed.

Lemma add_reminder_of_form now now' uuid (f : form) w :
  add_reminder iso now now' uuid (task_description f) (Z.pos (time_value f))
    (unit_str (time_unit f)) w
  = save iso
      (set_reminders
         (reminders w ++
          [Reminder uuid (task_description f) (now + offset f) now'
             STATUS_PENDING None]) w).
Proof. unfold add_reminder. by rewrite calculate_due_time_of_form. Qed.

Section Closed.

(** A property of the world that every "change the list, then save" keeps
    is kept by the loops, by a rendering, by a run and by a session. *)
Variable Q : world → Prop.
Hypothesis Q_save : ∀ w l, Q w → Q (save iso (set_reminders l w)).

Lemma active_item_world pg current_time now i p :
  Q (now_world p) → Q (now_world (active_item iso pg current_time now i p).1).
Proof.
  intros HQ. unfold active_item.
  destruct (reminders (now_world p) !! i) as [r|]; [|done].
  set (p1 := if decide _ then _ else p).
  assert (HQ1 : Q (now_world p1)).
  { subst p1. case_decide; [|done].
    destruct (become_due_shape i r p) as [l ->]. by apply Q_save. }
  destruct (_ && _); simpl.
  { destruct (complete_shape now i (now_world p1)) as [l ->]. by apply Q_save. }
  destruct (dismiss_button pg (id r)); simpl; [|done].
  destruct (dismiss_shape i (now_world p1)) as [l ->]. by apply Q_save.
Qed.

Lemma completed_item_world pg i p :
  Q (now_world p) → Q (now_world (completed_item iso pg i p).1).
Proof.
  intros HQ. unfold completed_item.
  destruct (reminders (now_world p) !! i) as [r|]; [|done].
  destruct (negb _); simpl.
  { destruct (uncomplete_shape i (now_world p)) as [l ->]. by apply Q_save. }
  destruct (dismiss_completed_button pg (id r)); simpl; [|done].
  destruct (dismiss_shape i (now_world p)) as [l ->]. by apply Q_save.
Qed.

Lemma for_each_world body refs p :
  (∀ i p, Q (now_world p) → Q (now_world (body i p).1)) →
  Q (now_world p) → Q (now_world (for_each body refs p).1).
Proof.
  intros Hbody. revert p. induction refs as [|i refs IH]; intros p HQ; [done|].
  simpl. specialize (Hbody i p HQ).
  destruct (body i p) as [p' []]; [|done]. by apply IH.
Qed.

Lemma render_world pg current_time now w :
  Q w → Q (after (render iso pg current_time now w)).
Proof.
  intros HQ. unfold render. case_decide; [done|].
  pose proof (for_each_world (active_item iso pg current_time now)
                (active_list (reminders w)) (Pass w [])
                (active_item_world pg current_time now) HQ) as H1.
  destruct (for_each (active_item iso pg current_time now) _ _) as [p1 []];
    [|done].
  pose proof (for_each_world (completed_item iso pg)
                (completed_list (reminders w)) p1
                (completed_item_world pg) H1) as H2.
  by destruct (for_each (completed_item iso pg) _ p1) as [p2 fl].
Qed.

Lemma script_run_world inp w : Q w → Q (after (script_run iso inp w)).
Proof.
  intros HQ. unfold script_run. destruct (_ && _); simpl.
  - rewrite add_reminder_of_form. by apply Q_save.
  - by apply render_world.
Qed.

Lemma session_world w w' : rtc (step iso) w w' → Q w → Q w'.
Proof.
  induction 1 as [|w1 w2 w3 [inp ->] _ IH]; [done|].
  intros HQ. by apply IH, script_run_world.
Qed.

End Closed.

Lemma save_writable w l :
  writable w = true →
  save iso (set_reminders l w)
  = World l (Document (serialize iso <$> (to_dict <$> l))) true (errors w).
Proof. destruct w as [l0 f wr e]. simpl. by intros ->. Qed.


(** X7.  On a disk that can be written, no run of the page ever shows an error
    message, whatever is submitted, ticked or pressed. *)
Theorem no_error_on_writable_disk (w w' : world) :
  writable w = true →
  rtc (step iso) w w' →
  errors w' = errors w ∧ writable w' = true.
Proof.
  intros Hw Hrun.
  refine (session_world (λ v, errors v = errors w ∧ writable v = true)
            _ w w' Hrun _); [|done].
  intros v l [He Hv]. by rewrite save_writable.
Qed.


(** X9.  Durability.  When the file agrees with the session list and the disk
    can be written, it agrees with the session list after every sequence of
    runs, and loading it returns the session list of that moment: a restart
    loses nothing. *)
Theorem file_follows_session (w w' : world) :
  (∀ d, fromiso (iso d) = Some d) →
  (∀ d, iso d ≠ "") →
  writable w = true →
  in_sync iso w →
  rtc (step iso) w w' →
  in_sync iso w' ∧
  load_reminders_from_file fromiso w' = Some (to_dict <$> reminders w', w').
Proof.
  intros Hinv Hne Hw Hsync Hrun.
  assert (H : writable w' = true ∧ in_sync iso w').
  { refine (session_world (λ v, writable v = true ∧ in_sync iso v)
              _ w w' Hrun _); [|done].
    intros v l [Hv _]. by rewrite save_writable. }
  destruct H as [_ H]. split; [done|].
  unfold load_reminders_from_file. rewrite H.
  by rewrite (mapM_deserialize_serialize iso fromiso Hinv Hne).
Qed.

End Disk.

(** ** What an evaluation does, as a whole *)

Section Evaluation.

Variable iso : datetime → string.

Lemma age_ages current_time r : ages r (age current_time r).
Proof. unfold age. case_decide as H; [right|by left]. by destruct H. Qed.

Lemma age_not_pending current_time r :
  status r ≠ STATUS_PENDING → age current_time r = r.
Proof. intros H. unfold age. rewrite decide_False; [done|]. by intros [_ ?]. Qed.

Lemma age_age now now' r : now ≤ now' → age now' (age now r) = age now' r.
Proof.
  intros Hle. unfold age at 2. case_decide as H; [|done].
  rewrite age_not_pending by done.
  unfold age. rewrite decide_True; [done|].
  destruct H as [H1 H2]. split; [lia|done].
Qed.

(** A reference that is not in the list is not touched by the loop. *)
Lemma for_each_active_untouched_other current_time now i refs p :
  i ∉ refs →
  reminders (now_world
    (for_each (active_item iso untouched current_time now) refs p).1) !! i
  = reminders (now_world p) !! i.
Proof.
  revert p. induction refs as [|j refs IH]; intros p Hi; simpl; [done|].
  apply not_elem_of_cons in Hi as [Hne Hi].
  rewrite active_item_untouched.
  destruct (reminders (now_world p) !! j) as [r|] eqn:Hr; [|by apply IH].
  case_decide; [|by apply IH].
  rewrite IH by done. rewrite reminders_become_due.
  by apply list_lookup_alter_ne.
Qed.

(** The session list after the loop: the references of the list have
    aged. *)
Lemma for_each_active_untouched_lookup current_time now i refs p :
  reminders (now_world
    (for_each (active_item iso untouched current_time now) refs p).1) !! i
  = if decide (i ∈ refs)
    then age current_time <$> reminders (now_world p) !! i
    else reminders (now_world p) !! i.
Proof.
  case_decide as Hin; [|by apply for_each_active_untouched_other].
  destruct (reminders (now_world p) !! i) as [r|] eqn:Hr; simpl.
  - unfold age. case_decide as Hover.
    + by destruct (for_each_active_untouched_notifies iso current_time now i r
                     refs p Hin Hr Hover) as [_ ->].
    + destruct (for_each_active_untouched_quiet iso current_time now i refs p)
        as [_ ->]; [|done].
      intros r0. rewrite Hr. by intros [= <-].
  - destruct (for_each_active_untouched_quiet iso current_time now i refs p)
      as [_ ->]; [|done].
    intros r0. by rewrite Hr.
Qed.

(** The notifications of the loop, in the order of the list. *)
Lemma for_each_active_untouched_notes current_time now refs p :
  NoDup refs →
  due_notifications_this_cycle
    (for_each (active_item iso untouched current_time now) refs p).1
  = (due_notifications_this_cycle p
     ++ omap (notification_of current_time (reminders (now_world p))) refs)%list.
Proof.
  revert p. induction refs as [|j refs IH]; intros p Hnd; simpl.
  { by rewrite app_nil_r. }
  apply NoDup_cons in Hnd as [Hj Hnd].
  rewrite active_item_untouched.
  assert (Hn : notification_of current_time (reminders (now_world p)) j
               = match reminders (now_world p) !! j with
                 | Some r =>
                     if decide (due_time r - current_time ≤ 0
                                ∧ status r = STATUS_PENDING)
                     then Some (Notification j (task r)) else None
                 | None => None
                 end).
  { unfold notification_of. by destruct (reminders (now_world p) !! j). }
  change (omap ?f (j :: refs))
    with (match f j with Some y => y :: omap f refs | None => omap f refs end).
  rewrite Hn. clear Hn.
  destruct (reminders (now_world p) !! j) as [r|] eqn:Hr; simpl.
  - case_decide as Hover; simpl.
    + rewrite IH by done. simpl. rewrite <- app_assoc. simpl. do 2 f_equal.
      apply list_omap_ext, Forall_Forall2_diag, Forall_forall.
      intros i Hi. unfold notification_of.
      rewrite reminders_save, reminders_assign, list_lookup_alter_ne; [done|].
      by intros ->.
    + by apply IH.
  - by apply IH.
Qed.

Lemma evaluate_reminders now w :
  reminders (after (evaluate iso now w)) = age now <$> reminders w.
Proof.
  destruct (decide (reminders w = [])) as [He|Hne].
  { rewrite evaluate_empty by done. by rewrite He. }
  rewrite evaluate_unfold by done. simpl.
  apply list_eq. intros i.
  rewrite for_each_active_untouched_lookup, list_lookup_fmap. simpl.
  case_decide as Hin; [done|].
  destruct (reminders w !! i) as [r|] eqn:Hr; [|done]. simpl.
  rewrite age_not_pending; [done|]. intros Hs. apply Hin.
  apply active_list_elem_of. exists r. split; [done|by left].
Qed.

(** X11.  An evaluation at time [now] makes due the pending reminders whose due
    time is at or before [now], changes nothing else, raises one
    notification for each of them in the order of the active list, and runs
    to its end. *)
Theorem evaluate_effect (now : datetime) (w : world) :
  reminders (after (evaluate iso now w)) = age now <$> reminders w ∧
  became_due (evaluate iso now w)
  = omap (notification_of now (reminders w)) (active_list (reminders w)) ∧
  ended (evaluate iso now w) = Continue.
Proof.
  split; [apply evaluate_reminders|].
  destruct (decide (reminders w = [])) as [He|Hne].
  { rewrite evaluate_empty by done. by rewrite He. }
  rewrite evaluate_unfold by done. simpl. split; [|done].
  rewrite for_each_active_untouched_notes by apply active_list_NoDup. done.
Qed.

(** X12.  An evaluation made on the way changes nothing for a later one: the
    session list after evaluating at [now] and then at [now' >= now] is the
    one after evaluating at [now'] alone. *)
Theorem evaluate_absorbs (now now' : datetime) (w : world) :
  now ≤ now' →
  reminders (after (evaluate iso now' (after (evaluate iso now w))))
  = reminders (after (evaluate iso now' w)).
Proof.
  intros Hle. rewrite !evaluate_reminders, <- list_fmap_compose.
  apply list_fmap_ext. intros i r _. simpl. by apply age_age.
Qed.

End Evaluation.

(** ** One widget touched *)

Section OneWidget.

Variable iso : datetime → string.

Lemma for_each_app body l1 l2 p :
  for_each body (l1 ++ l2) p
  = match for_each body l1 p with
    | (p', Rerun) => (p', Rerun)
    | (p', Continue) => for_each body l2 p'
    end.
Proof.
  revert p. induction l1 as [|i l1 IH]; intros p; simpl; [done|].
  destruct (body i p) as [p' []]; [apply IH|done].
Qed.

Lemma active_item_ext pg current_time now j p :
  (∀ r, reminders (now_world p) !! j = Some r →
        complete_checkbox pg (id r) = false ∧ dismiss_button pg (id r) = false) →
  active_item iso pg current_time now j p
  = active_item iso untouched current_time now j p.
Proof.
  intros H. unfold active_item.
  destruct (reminders (now_world p) !! j) as [r|]; [|done].
  by destruct (H r eq_refl) as [-> ->].
Qed.

Lemma for_each_active_ext pg current_time now refs p :
  Forall (λ j, ∀ r, reminders (now_world p) !! j = Some r →
                    complete_checkbox pg (id r) = false ∧
                    dismiss_button pg (id r) = false) refs →
  for_each (active_item iso pg current_time now) refs p
  = for_each (active_item iso untouched current_time now) refs p.
Proof.
  revert p. induction refs as [|j refs IH]; intros p H; simpl; [done|].
  apply Forall_cons in H as [Hj H].
  rewrite active_item_ext by done.
  destruct (active_item iso untouched current_time now j p) as [p1 fl] eqn:E.
  pose proof E as E'. rewrite active_item_untouched in E'.
  injection E' as _ <-.
  apply active_item_continue in E. apply IH.
  eapply Forall_impl; [exact H|]. intros k Hk r1 Hr1. simpl in Hk.
  destruct (Forall2_lookup_ages _ _ _ _ E Hr1) as (r0 & Hr0 & Ha).
  apply ages_fields in Ha as (-> & _). by apply Hk.
Qed.

Lemma for_each_completed_idle pg refs p :
  Forall (λ j, ∀ r, reminders (now_world p) !! j = Some r →
                    uncomplete_checkbox pg (id r) = true ∧
                    dismiss_completed_button pg (id r) = false) refs →
  for_each (completed_item iso pg) refs p = (p, Continue).
Proof.
  induction 1 as [|j refs Hj _ IH]; simpl; [done|].
  unfold completed_item at 1.
  destruct (reminders (now_world p) !! j) as [r|]; [|exact IH].
  by destruct (Hj r eq_refl) as [-> ->].
Qed.

(** The whole active loop with no widget touched ages the session list. *)
Lemma active_loop_untouched_reminders current_time now w :
  reminders (now_world
    (for_each (active_item iso untouched current_time now)
       (active_list (reminders w)) (Pass w [])).1)
  = age current_time <$> reminders w.
Proof.
  apply list_eq. intros i.
  rewrite for_each_active_untouched_lookup, list_lookup_fmap. simpl.
  case_decide as Hin; [done|].
  destruct (reminders w !! i) as [r|] eqn:Hr; [|done]. simpl.
  rewrite age_not_pending; [done|]. intros Hs. apply Hin.
  apply active_list_elem_of. exists r. split; [done|by left].
Qed.

Lemma lookup_nonempty (l : list reminder) i r : l !! i = Some r → l ≠ [].
Proof. by intros H ->. Qed.

(** The widget of an active reminder is touched, and no widget of the other
    active reminders: the loop stops at that reminder, after the automatic
    transitions of the ones shown before it and of itself. *)
Lemma render_active_hit pg current_time now w i r :
  reminders w !! i = Some r →
  is_active r →
  (∀ j r', j ≠ i → reminders w !! j = Some r' → is_active r' →
           complete_checkbox pg (id r') = false ∧
           dismiss_button pg (id r') = false) →
  complete_checkbox pg (id r) = true ∨ dismiss_button pg (id r) = true →
  ∃ p1,
    Forall2 ages (reminders w) (reminders (now_world p1)) ∧
    reminders (now_world p1) !! i = Some (age current_time r) ∧
    render iso pg current_time now w
    = Rendering
        (if complete_checkbox pg (id r)
         then complete iso now i (now_world p1)
         else dismiss iso i (now_world p1))
        (active_list (reminders w)) (completed_list (reminders w))
        (due_notifications_this_cycle p1) Rerun.
Proof.
  intros Hi Ha Hothers Hhit.
  assert (Hin : i ∈ active_list (reminders w)).
  { apply active_list_elem_of. eauto. }
  destruct (list_elem_of_split _ _ Hin) as (pre & post & Hsplit).
  assert (Hnotin : i ∉ pre).
  { pose proof (active_list_NoDup (reminders w)) as Hnd.
    rewrite Hsplit in Hnd. apply NoDup_app in Hnd as (_ & Hpre & _).
    intros Hip. apply (Hpre i Hip). by left. }
  assert (Hpre_active : Forall (λ j, ∀ r', reminders w !! j = Some r' →
                                    is_active r') pre).
  { apply Forall_forall. intros j Hj r' Hr'.
    assert (Hj' : j ∈ active_list (reminders w)).
    { rewrite Hsplit. apply elem_of_app. by left. }
    apply active_list_elem_of in Hj' as (r'' & Hr'' & ?). congruence. }
  assert (Hrun : ∃ p0,
    for_each (active_item iso pg current_time now) pre (Pass w []) = (p0, Continue) ∧
    Forall2 ages (reminders w) (reminders (now_world p0)) ∧
    reminders (now_world p0) !! i = Some r).
  { rewrite for_each_active_ext.
    2:{ apply Forall_forall. intros j Hj r' Hr'. simpl in Hr'.
        rewrite Forall_forall in Hpre_active.
        apply (Hothers j r'); [by intros ->|done|by eapply Hpre_active]. }
    destruct (for_each (active_item iso untouched current_time now) pre
                (Pass w [])) as [p0 fl0] eqn:Hrun.
    pose proof (for_each_active_untouched_flow iso current_time now pre
                  (Pass w [])) as Hfl.
    pose proof (for_each_active_untouched_other iso current_time now i pre
                  (Pass w []) Hnotin) as Hl0.
    rewrite Hrun in Hfl, Hl0. simpl in Hfl, Hl0. subst fl0.
    exists p0. split; [done|]. split; [|by rewrite Hl0].
    apply for_each_active in Hrun as [Hag _]; [by apply Hag|done]. }
  destruct Hrun as (p0 & Hrun & Hages0 & Hl0).
  set (p1 := if decide (due_time r - current_time ≤ 0 ∧ status r = STATUS_PENDING)
             then become_due iso i r p0 else p0).
  assert (Hl1 : reminders (now_world p1) !! i = Some (age current_time r)).
  { subst p1. unfold age, overdue_pending. case_decide; [|done].
    by rewrite reminders_become_due, list_lookup_alter_eq, Hl0. }
  exists p1. split; [|split; [done|]].
  { etrans; [exact Hages0|]. by apply become_due_ages. }
  unfold render. rewrite decide_False by (by eapply lookup_nonempty).
  rewrite Hsplit, for_each_app, Hrun. simpl.
  unfold active_item at 1. rewrite Hl0. fold p1. rewrite Hl1. simpl.
  rewrite bool_decide_true.
  2:{ intros [= Hs]. pose proof (age_ages current_time r) as Hag.
      apply (ages_is_active _ _ Hag) in Ha. destruct Ha; congruence. }
  destruct (complete_checkbox pg (id r)); simpl; [done|].
  destruct Hhit as [? | ->]; done.
Qed.

(** The widget of a completed reminder is touched, and no widget of any
    other reminder: the active loop runs to its end, the completed loop
    stops at that reminder. *)
Lemma render_completed_hit pg current_time now w i r :
  reminders w !! i = Some r →
  status r = STATUS_COMPLETED →
  (∀ j r', j ≠ i → reminders w !! j = Some r' → untouched_for pg r') →
  uncomplete_checkbox pg (id r) = false ∨ dismiss_completed_button pg (id r) = true →
  ∃ p1,
    reminders (now_world p1) = age current_time <$> reminders w ∧
    render iso pg current_time now w
    = Rendering
        (if uncomplete_checkbox pg (id r)
         then dismiss iso i (now_world p1)
         else uncomplete iso i (now_world p1))
        (active_list (reminders w)) (completed_list (reminders w))
        (due_notifications_this_cycle p1) Rerun.
Proof.
  intros Hi Hc Hothers Hhit.
  assert (Hin : i ∈ completed_list (reminders w)).
  { apply completed_list_elem_of. eauto. }
  destruct (list_elem_of_split _ _ Hin) as (pre & post & Hsplit).
  assert (Hnotin : i ∉ pre).
  { pose proof (completed_list_NoDup (reminders w)) as Hnd.
    rewrite Hsplit in Hnd. apply NoDup_app in Hnd as (_ & Hpre & _).
    intros Hip. apply (Hpre i Hip). by left. }
  destruct (for_each (active_item iso untouched current_time now)
              (active_list (reminders w)) (Pass w [])) as [p1 fl1] eqn:Hrun.
  pose proof (for_each_active_untouched_flow iso current_time now
                (active_list (reminders w)) (Pass w [])) as Hfl.
  pose proof (active_loop_untouched_reminders current_time now w) as Hl1.
  rewrite Hrun in Hfl, Hl1. simpl in Hfl, Hl1. subst fl1.
  exists p1. split; [done|].
  unfold render. rewrite decide_False by (by eapply lookup_nonempty).
  rewrite for_each_active_ext, Hrun.
  2:{ apply Forall_forall. intros j Hj r' Hr'. simpl in Hr'.
      apply active_list_elem_of in Hj as (r'' & Hr'' & Hact).
      assert (j ≠ i).
      { intros ->. rewrite Hi in Hr''. injection Hr'' as <-.
        destruct Hact; congruence. }
      destruct (Hothers j r') as (? & ? & _); done. }
  rewrite Hsplit, for_each_app, for_each_completed_idle.
  2:{ apply Forall_forall. intros j Hj r1 Hr1.
      rewrite Hl1, list_lookup_fmap in Hr1.
      destruct (reminders w !! j) as [r0|] eqn:Hr0; [|done].
      injection Hr1 as <-.
      assert (j ≠ i) by (by intros ->).
      destruct (Hothers j r0) as (_ & _ & ? & ?); [done|done|].
      pose proof (age_ages current_time r0) as Hag.
      apply ages_fields in Hag as (-> & _). done. }
  simpl. unfold completed_item at 1.
  rewrite Hl1, list_lookup_fmap, Hi. simpl.
  rewrite (age_not_pending current_time r) by congruence.
  destruct (uncomplete_checkbox pg (id r)); simpl; [|done].
  destruct Hhit as [? | ->]; done.
Qed.

(** X13.  Ticking the "complete" box of an active reminder, with no box or button
    of the other active reminders touched: the run stops there, the reminder
    is completed at the clock reading of line 198 and keeps its id, task and
    times; every other reminder is as it was or has gone from pending to
    due. *)
Theorem tick_completes pg (current_time now : datetime) (w : world) (i : nat)
    (r : reminder) :
  reminders w !! i = Some r →
  is_active r →
  complete_checkbox pg (id r) = true →
  (∀ j r', j ≠ i → reminders w !! j = Some r' → is_active r' →
           complete_checkbox pg (id r') = false ∧
           dismiss_button pg (id r') = false) →
  ended (render iso pg current_time now w) = Rerun ∧
  reminders (after (render iso pg current_time now w)) !! i
  = Some (Reminder (id r) (task r) (due_time r) (created_at r)
            STATUS_COMPLETED (Some now)) ∧
  (∀ j r', j ≠ i → reminders w !! j = Some r' →
     ∃ r'', reminders (after (render iso pg current_time now w)) !! j = Some r''
            ∧ ages r' r'').
Proof.
  intros Hi Ha Htick Hothers.
  destruct (render_active_hit pg current_time now w i r Hi Ha Hothers)
    as (p1 & Hages & Hl1 & ->); [by left|].
  rewrite Htick. simpl. split; [done|].
  rewrite reminders_complete. split.
  - rewrite list_lookup_alter_eq, Hl1. simpl. f_equal.
    unfold age. by case_decide.
  - intros j r' Hne Hr'. rewrite list_lookup_alter_ne by done.
    by apply (Forall2_lookup_l _ _ _ j r' Hages).
Qed.

(** X14.  Pressing the "dismiss" button of an active reminder whose box is not
    ticked, with no box or button of the other active reminders touched:
    the run stops there, the reminder is dismissed and keeps everything
    else, its [completed_at] included; every other reminder is as it was or
    has gone from pending to due. *)
Theorem press_dismisses_active pg (current_time now : datetime) (w : world)
    (i : nat) (r : reminder) :
  reminders w !! i = Some r →
  is_active r →
  complete_checkbox pg (id r) = false →
  dismiss_button pg (id r) = true →
  (∀ j r', j ≠ i → reminders w !! j = Some r' → is_active r' →
           complete_checkbox pg (id r') = false ∧
           dismiss_button pg (id r') = false) →
  ended (render iso pg current_time now w) = Rerun ∧
  reminders (after (render iso pg current_time now w)) !! i
  = Some (Reminder (id r) (task r) (due_time r) (created_at r)
            STATUS_DISMISSED (completed_at r)) ∧
  (∀ j r', j ≠ i → reminders w !! j = Some r' →
     ∃ r'', reminders (after (render iso pg current_time now w)) !! j = Some r''
            ∧ ages r' r'').
Proof.
  intros Hi Ha Htick Hpress Hothers.
  destruct (render_active_hit pg current_time now w i r Hi Ha Hothers)
    as (p1 & Hages & Hl1 & ->); [by right|].
  rewrite Htick. simpl. split; [done|].
  rewrite reminders_dismiss. split.
  - rewrite list_lookup_alter_eq, Hl1. simpl. f_equal.
    unfold age. by case_decide.
  - intros j r' Hne Hr'. rewrite list_lookup_alter_ne by done.
    by apply (Forall2_lookup_l _ _ _ j r' Hages).
Qed.

(** X15.  Unticking the box of a completed reminder, with no widget of any other
    reminder touched: the run stops there; the reminder is pending again,
    without [completed_at], also when its due time has passed; the other
    reminders have aged. *)
Theorem untick_uncompletes pg (current_time now : datetime) (w : world)
    (i : nat) (r : reminder) :
  reminders w !! i = Some r →
  status r = STATUS_COMPLETED →
  uncomplete_checkbox pg (id r) = false →
  (∀ j r', j ≠ i → reminders w !! j = Some r' → untouched_for pg r') →
  ended (render iso pg current_time now w) = Rerun ∧
  reminders (after (render iso pg current_time now w))
  = <[i := Reminder (id r) (task r) (due_time r) (created_at r)
            STATUS_PENDING None]> (age current_time <$> reminders w).
Proof.
  intros Hi Hc Huntick Hothers.
  destruct (render_completed_hit pg current_time now w i r Hi Hc Hothers)
    as (p1 & Hl1 & ->); [by left|].
  rewrite Huntick. simpl. split; [done|].
  rewrite reminders_uncomplete, Hl1.
  apply list_eq. intros j.
  destruct (decide (j = i)) as [->|Hne].
  - rewrite list_lookup_alter_eq, list_lookup_insert_eq.
    + rewrite list_lookup_fmap, Hi. simpl.
      by rewrite (age_not_pending current_time r) by congruence.
    + rewrite length_fmap. by eapply lookup_lt_Some.
  - by rewrite list_lookup_alter_ne, list_lookup_insert_ne.
Qed.

(** X16.  Pressing the "dismiss" button of a completed reminder whose box is
    still ticked, with no widget of any other reminder touched: the run
    stops there; the reminder is dismissed and keeps its [completed_at];
    the other reminders have aged. *)
Theorem press_dismisses_completed pg (current_time now : datetime) (w : world)
    (i : nat) (r : reminder) :
  reminders w !! i = Some r →
  status r = STATUS_COMPLETED →
  uncomplete_checkbox pg (id r) = true →
  dismiss_completed_button pg (id r) = true →
  (∀ j r', j ≠ i → reminders w !! j = Some r' → untouched_for pg r') →
  ended (render iso pg current_time now w) = Rerun ∧
  reminders (after (render iso pg current_time now w))
  = <[i := Reminder (id r) (task r) (due_time r) (created_at r)
            STATUS_DISMISSED (completed_at r)]> (age current_time <$> reminders w).
Proof.
  intros Hi Hc Hticked Hpress Hothers.
  destruct (render_completed_hit pg current_time now w i r Hi Hc Hothers)
    as (p1 & Hl1 & ->); [by right|].
  rewrite Hticked. simpl. split; [done|].
  rewrite reminders_dismiss, Hl1.
  apply list_eq. intros j.
  destruct (decide (j = i)) as [->|Hne].
  - rewrite list_lookup_alter_eq, list_lookup_insert_eq.
    + rewrite list_lookup_fmap, Hi. simpl.
      by rewrite (age_not_pending current_time r) by congruence.
    + rewrite length_fmap. by eapply lookup_lt_Some.
  - by rewrite list_lookup_alter_ne, list_lookup_insert_ne.
Qed.

(** X17.  Widgets that belong to no reminder of the session list have no effect:
    when no widget of a listed reminder is touched, the rendering is the
    one of an untouched page, whatever the other widgets say. *)
Theorem foreign_widgets_ignored pg (current_time now : datetime) (w : world) :
  (∀ r, r ∈ reminders w → untouched_for pg r) →
  render iso pg current_time now w = render iso untouched current_time now w.
Proof.
  intros Hall. unfold render. case_decide; [done|].
  rewrite for_each_active_ext.
  2:{ apply Forall_forall. intros j _ r Hr. simpl in Hr.
      destruct (Hall r) as (? & ? & _); [|done].
      by eapply list_elem_of_lookup_2. }
  destruct (for_each (active_item iso untouched current_time now)
              (active_list (reminders w)) (Pass w [])) as [p1 fl1] eqn:Hrun.
  destruct fl1; [|done].
  rewrite for_each_completed_untouched, for_each_completed_idle; [done|].
  apply for_each_active in Hrun as [Hages _].
  2:{ apply Forall_forall. intros j Hj r Hr. simpl in Hr.
      apply active_list_elem_of in Hj as (r' & Hr' & ?). congruence. }
  specialize (Hages eq_refl). simpl in Hages.
  apply Forall_forall. intros j _ r1 Hr1.
  destruct (Forall2_lookup_ages _ _ _ _ Hages Hr1) as (r0 & Hr0 & Ha).
  apply ages_fields in Ha as (-> & _).
  destruct (Hall r0) as (_ & _ & ? & ?); [|done].
  by eapply list_elem_of_lookup_2.
Qed.

End OneWidget.

(** ** The session list through the runs *)

Section Session.

Variable iso : datetime → string.




(** X20.  No reminder is ever removed or moved, and its id and task never change:
    after every sequence of runs it is at its place with the same id and
    task. *)
Theorem id_and_task_kept (w w' : world) (i : nat) (r : reminder) :
  rtc (step iso) w w' →
  reminders w !! i = Some r →
  (length (reminders w) ≤ length (reminders w'))%nat ∧
  ∃ r', reminders w' !! i = Some r' ∧ id r' = id r ∧ task r' = task r.
Proof.
  intros Hrun Hi. pose proof (session_continues _ _ _ Hrun) as Hc. split.
  - destruct Hc as (new & _ & H). apply Forall2_length in H.
    rewrite length_app in H. lia.
  - destruct (continues_lookup _ _ _ _ Hc Hi) as (r' & Hr' & Htrans).
    apply transitions_fields in Htrans as (? & ? & _). eauto.
Qed.

(** *** The in-memory state does not depend on the disk *)

Lemma active_item_same pg current_time now i p1 p2 :
  reminders (now_world p1) = reminders (now_world p2) →
  due_notifications_this_cycle p1 = due_notifications_this_cycle p2 →
  reminders (now_world (active_item iso pg current_time now i p1).1)
  = reminders (now_world (active_item iso pg current_time now i p2).1) ∧
  due_notifications_this_cycle (active_item iso pg current_time now i p1).1
  = due_notifications_this_cycle (active_item iso pg current_time now i p2).1 ∧
  (active_item iso pg current_time now i p1).2
  = (active_item iso pg current_time now i p2).2.
Proof.
  intros Hl Hn. unfold active_item. rewrite Hl.
  destruct (reminders (now_world p2) !! i) as [r|]; [|done].
  set (q1 := if decide _ then become_due iso i r p1 else p1).
  set (q2 := if decide _ then become_due iso i r p2 else p2).
  assert (Hq : reminders (now_world q1) = reminders (now_world q2)
             ∧ due_notifications_this_cycle q1 = due_notifications_this_cycle q2).
  { subst q1 q2. case_decide; [|done].
    rewrite !reminders_become_due, Hl. unfold become_due. simpl. by rewrite Hn. }
  destruct Hq as [Hql Hqn]. rewrite Hql.
  destruct (_ && _); simpl.
  { by rewrite !reminders_complete, Hql. }
  destruct (dismiss_button pg (id r)); simpl; [|done].
  by rewrite !reminders_dismiss, Hql.
Qed.

Lemma completed_item_same pg i p1 p2 :
  reminders (now_world p1) = reminders (now_world p2) →
  due_notifications_this_cycle p1 = due_notifications_this_cycle p2 →
  reminders (now_world (completed_item iso pg i p1).1)
  = reminders (now_world (completed_item iso pg i p2).1) ∧
  due_notifications_this_cycle (completed_item iso pg i p1).1
  = due_notifications_this_cycle (completed_item iso pg i p2).1 ∧
  (completed_item iso pg i p1).2 = (completed_item iso pg i p2).2.
Proof.
  intros Hl Hn. unfold completed_item. rewrite Hl.
  destruct (reminders (now_world p2) !! i) as [r|]; [|done].
  destruct (negb _); simpl.
  { by rewrite !reminders_uncomplete, Hl. }
  destruct (dismiss_completed_button pg (id r)); simpl; [|done].
  by rewrite !reminders_dismiss, Hl.
Qed.

Lemma for_each_same body refs p1 p2 :
  (∀ i p1 p2,
     reminders (now_world p1) = reminders (now_world p2) →
     due_notifications_this_cycle p1 = due_notifications_this_cycle p2 →
     reminders (now_world (body i p1).1) = reminders (now_world (body i p2).1) ∧
     due_notifications_this_cycle (body i p1).1
     = due_notifications_this_cycle (body i p2).1 ∧
     (body i p1).2 = (body i p2).2) →
  reminders (now_world p1) = reminders (now_world p2) →
  due_notifications_this_cycle p1 = due_notifications_this_cycle p2 →
  reminders (now_world (for_each body refs p1).1)
  = reminders (now_world (for_each body refs p2).1) ∧
  due_notifications_this_cycle (for_each body refs p1).1
  = due_notifications_this_cycle (for_each body refs p2).1 ∧
  (for_each body refs p1).2 = (for_each body refs p2).2.
Proof.
  intros Hbody. revert p1 p2.
  induction refs as [|i refs IH]; intros p1 p2 Hl Hn; simpl; [done|].
  destruct (Hbody i p1 p2 Hl Hn) as (H1 & H2 & H3).
  destruct (body i p1) as [q1 f1], (body i p2) as [q2 f2]. simpl in *.
  subst f2. destruct f1; [by apply IH|done].
Qed.

(** X10.  The session list, the two lists shown, the notifications and the end
    of a run depend on the session list the run starts from, not on the
    file, on whether it can be written, or on the messages shown so far: a
    failed save changes nothing in memory. *)
Theorem run_ignores_disk (inp : run_input) (w1 w2 : world) :
  reminders w1 = reminders w2 →
  reminders (after (script_run iso inp w1))
  = reminders (after (script_run iso inp w2)) ∧
  sorted_active_reminders (script_run iso inp w1)
  = sorted_active_reminders (script_run iso inp w2) ∧
  sorted_completed_reminders (script_run iso inp w1)
  = sorted_completed_reminders (script_run iso inp w2) ∧
  became_due (script_run iso inp w1) = became_due (script_run iso inp w2) ∧
  ended (script_run iso inp w1) = ended (script_run iso inp w2).
Proof.
  intros Hl. unfold script_run. destruct (_ && _); simpl.
  { by rewrite !add_reminder_of_form, !reminders_save; simpl; rewrite Hl. }
  unfold render. rewrite Hl. case_decide; [done|].
  destruct (for_each_same
              (active_item iso (the_widgets inp) (clock1 inp) (clock2 inp))
              (active_list (reminders w2)) (Pass w1 []) (Pass w2 [])
              (active_item_same _ _ _) Hl eq_refl) as (H1 & H2 & H3).
  destruct (for_each (active_item iso _ _ _) _ (Pass w1 [])) as [p1 f1].
  destruct (for_each (active_item iso _ _ _) _ (Pass w2 [])) as [p2 f2].
  simpl in *. subst f2. destruct f1; [|done].
  destruct (for_each_same (completed_item iso (the_widgets inp))
              (completed_list (reminders w2)) p1 p2
              (completed_item_same _) H1 H2) as (H4 & H5 & H6).
  destruct (for_each (completed_item iso _) _ p1) as [q1 g1].
  destruct (for_each (completed_item iso _) _ p2) as [q2 g2].
  simpl in *. by subst g2.
Qed.

End Session.

(** ** Display order of equal keys, and the polling test *)

Section Display.

Variable iso : datetime → string.

Lemma classify_increasing_1 i l : StronglySorted lt (classify i l [] []).1.
Proof.
  revert i. induction l as [|r l IH]; intros i; [constructor|].
  rewrite classify_cons_1. case_decide; [|apply IH].
  simpl. constructor; [apply IH|].
  apply Forall_forall. intros j Hj.
  apply classify_elem_of_1 in Hj as (? & ? & _). lia.
Qed.

Lemma classify_increasing_2 i l : StronglySorted lt (classify i l [] []).2.
Proof.
  revert i. induction l as [|r l IH]; intros i; [constructor|].
  rewrite classify_cons_2. case_decide; [|apply IH].
  simpl. constructor; [apply IH|].
  apply Forall_forall. intros j Hj.
  apply classify_elem_of_2 in Hj as (? & ? & _). lia.
Qed.

Lemma StronglySorted_filter {A} (R : relation A) (P : A → Prop)
    `{∀ x, Decision (P x)} (l : list A) :
  StronglySorted R l → StronglySorted R (filter P l).
Proof.
  induction 1 as [|x l Hl IH Hx]; [constructor|].
  rewrite filter_cons. case_decide; [|done].
  constructor; [done|].
  apply Forall_forall. intros y Hy. apply list_elem_of_filter in Hy as [_ Hy].
  rewrite Forall_forall in Hx. by apply Hx.
Qed.

(** X21.  Reminders with the same due time are shown in the active list in the
    order they were added, and so are, in the completed list, reminders
    with the same completion time. *)
Theorem ties_in_insertion_order (l : list reminder) (k : Z) :
  StronglySorted lt (filter (λ i, due_key l i = k) (active_list l)) ∧
  StronglySorted lt (filter (λ i, completed_key l i = k) (completed_list l)).
Proof.
  unfold active_list, completed_list. rewrite !sorted_stable.
  split; apply StronglySorted_filter.
  - apply classify_increasing_1.
  - apply classify_increasing_2.
Qed.

Lemma active_reminders_exist_spec l :
  active_reminders_exist l = true ↔ active_list l ≠ [].
Proof.
  unfold active_reminders_exist. rewrite existsb_exists. split.
  - intros (r & Hr & Hs). apply list_elem_of_In in Hr.
    apply list_elem_of_lookup in Hr as [i Hi].
    apply bool_decide_eq_true in Hs.
    assert (Hin : i ∈ active_list l).
    { apply active_list_elem_of. exists r. split; [done|].
      unfold is_active.
      apply elem_of_cons in Hs as [->|Hs]; [by left|].
      apply list_elem_of_singleton in Hs as ->. by right. }
    intros E. rewrite E in Hin. by apply elem_of_nil in Hin.
  - intros Hne. destruct (active_list l) as [|i rest] eqn:E; [done|].
    assert (Hin : i ∈ active_list l) by (rewrite E; by left).
    apply active_list_elem_of in Hin as (r & Hr & Ha).
    exists r. split.
    + apply list_elem_of_In. by eapply list_elem_of_lookup_2.
    + apply bool_decide_eq_true. destruct Ha as [-> | ->]; [by left|].
      right. by left.
Qed.

(** X22.  The test of line 264 holds exactly when the active list shows
    something, and an evaluation does not change it: the page goes on
    polling as long as a reminder is pending or due, and stops when all
    are completed or dismissed. *)
Theorem polling_while_active (now : datetime) (w : world) :
  (active_reminders_exist (reminders w) = true
   ↔ active_list (reminders w) ≠ []) ∧
  active_reminders_exist (reminders (after (evaluate iso now w)))
  = active_reminders_exist (reminders w).
Proof.
  split; [apply active_reminders_exist_spec|].
  pose proof (active_list_ages _ _ (evaluate_ages iso now w)) as E.
  pose proof (active_reminders_exist_spec (reminders w)) as H1.
  pose proof (active_reminders_exist_spec
                (reminders (after (evaluate iso now w)))) as H2.
  rewrite E in H2.
  destruct (active_reminders_exist (reminders w)),
    (active_reminders_exist (reminders (after (evaluate iso now w))));
    intuition congruence.
Qed.

(** X23.  Completing and then un-completing a reminder leaves it pending and
    without [completed_at], whatever it was before; if its due time has
    passed, the next evaluation makes it due and raises its notification
    (again, if it had been due before). *)
Theorem uncomplete_restarts (t now : datetime) (i : nat) (w : world)
    (r : reminder) :
  reminders w !! i = Some r →
  due_time r ≤ now →
  reminders (uncomplete iso i (complete iso t i w))
  = <[i := Reminder (id r) (task r) (due_time r) (created_at r)
            STATUS_PENDING None]> (reminders w) ∧
  reminders (after (evaluate iso now (uncomplete iso i (complete iso t i w)))) !! i
  = Some (Reminder (id r) (task r) (due_time r) (created_at r) STATUS_DUE None) ∧
  filter (λ n, about n = i)
    (became_due (evaluate iso now (uncomplete iso i (complete iso t i w))))
  = [Notification i (task r)].
Proof.
  intros Hi Hdue.
  assert (E : reminders (uncomplete iso i (complete iso t i w))
              = <[i := Reminder (id r) (task r) (due_time r) (created_at r)
                         STATUS_PENDING None]> (reminders w)).
  { rewrite reminders_uncomplete, reminders_complete, list_alter_alter_eq.
    apply list_eq. intros j. destruct (decide (j = i)) as [->|Hne].
    - rewrite list_lookup_alter_eq, list_lookup_insert_eq, Hi; [done|].
      by eapply lookup_lt_Some.
    - by rewrite list_lookup_alter_ne, list_lookup_insert_ne. }
  split; [exact E|].
  destruct (evaluate_notifies iso now (uncomplete iso i (complete iso t i w)) i
              (Reminder (id r) (task r) (due_time r) (created_at r)
                 STATUS_PENDING None)) as [H1 H2].
  - rewrite E. apply list_lookup_insert_eq. by eapply lookup_lt_Some.
  - split; [simpl; lia|done].
  - split; [exact H2|exact H1].
Qed.

End Display.

(** ** Closed instances of the statements about the code around the claims *)



Lemma serialize_to_dict_json_witness :
  json_serializable (serialize decimal_stamp (to_dict call)).
Proof. exact (serialize_to_dict_json decimal_stamp call). Defined.

Lemma load_raises_on_bad_timestamp_witness :
  load_reminders_from_file parse_decimal_stamp broken_world = None.
Proof.
  apply (load_raises_on_bad_timestamp parse_decimal_stamp broken_world
           [<["due_time" := PStr "tomorrow"]> (to_dict milk)]
           (<["due_time" := PStr "tomorrow"]> (to_dict milk)) "due_time" "tomorrow").
  - reflexivity.
  - apply list_elem_of_singleton. reflexivity.
  - unfold time_keys. left.
  - reflexivity.
  - discriminate.
  - reflexivity.
Defined.

Lemma no_error_on_writable_disk_witness :
  errors (after (script_run decimal_stamp
                   (run_at (timedelta.seconds 20) all_touched) busy_world)) = [] ∧
  writable (after (script_run decimal_stamp
                     (run_at (timedelta.seconds 20) all_touched) busy_world)) = true.
Proof.
  apply (no_error_on_writable_disk decimal_stamp busy_world).
  - reflexivity.
  - apply rtc_once. exists (run_at (timedelta.seconds 20) all_touched). reflexivity.
Defined.


Lemma file_follows_session_witness :
  in_sync decimal_stamp
    (after (script_run decimal_stamp
              (run_at (timedelta.seconds 20) untouched)
              (save decimal_stamp busy_world))) ∧
  load_reminders_from_file parse_decimal_stamp
    (after (script_run decimal_stamp
              (run_at (timedelta.seconds 20) untouched)
              (save decimal_stamp busy_world)))
  = Some (to_dict <$>
            reminders (after (script_run decimal_stamp
                                (run_at (timedelta.seconds 20) untouched)
                                (save decimal_stamp busy_world))),
          after (script_run decimal_stamp
                   (run_at (timedelta.seconds 20) untouched)
                   (save decimal_stamp busy_world))).
Proof.
  apply (file_follows_session decimal_stamp parse_decimal_stamp
           (save decimal_stamp busy_world)).
  - exact parse_decimal_stamp_decimal_stamp.
  - exact decimal_stamp_not_empty.
  - reflexivity.
  - reflexivity.
  - apply rtc_once. exists (run_at (timedelta.seconds 20) untouched). reflexivity.
Defined.

Lemma run_ignores_disk_witness :
  reminders (after (script_run decimal_stamp
                      (run_at (timedelta.seconds 20) all_touched) busy_world))
  = reminders (after (script_run decimal_stamp
                        (run_at (timedelta.seconds 20) all_touched) readonly_world)).
Proof.
  exact (proj1 (run_ignores_disk decimal_stamp
                  (run_at (timedelta.seconds 20) all_touched)
                  busy_world readonly_world eq_refl)).
Defined.

Lemma evaluate_absorbs_witness :
  reminders (after (evaluate decimal_stamp (timedelta.seconds 12)
                      (after (evaluate decimal_stamp (timedelta.seconds 5)
                                busy_world))))
  = reminders (after (evaluate decimal_stamp (timedelta.seconds 12) busy_world)).
Proof.
  apply (evaluate_absorbs decimal_stamp (timedelta.seconds 5)
           (timedelta.seconds 12) busy_world).
  vm_compute. discriminate.
Defined.

Lemma others_untouched_by_tick :
  ∀ j r', j ≠ 0%nat → reminders busy_world !! j = Some r' → is_active r' →
          complete_checkbox (tick "id-1") (id r') = false ∧
          dismiss_button (tick "id-1") (id r') = false.
Proof.
  intros [|[|[|[|[|j]]]]] r' Hne Hr' _; simpl in Hr'; try done;
    injection Hr' as <-; by split.
Qed.

Lemma tick_completes_witness :
  ended (render decimal_stamp (tick "id-1") (timedelta.seconds 5)
           (timedelta.seconds 6) busy_world) = Rerun ∧
  reminders (after (render decimal_stamp (tick "id-1") (timedelta.seconds 5)
                      (timedelta.seconds 6) busy_world)) !! 0%nat
  = Some (Reminder "id-1" "Buy milk" (timedelta.seconds 10) 0 STATUS_COMPLETED
            (Some (timedelta.seconds 6))) ∧
  (∀ j r', j ≠ 0%nat → reminders busy_world !! j = Some r' →
     ∃ r'', reminders (after (render decimal_stamp (tick "id-1")
                                (timedelta.seconds 5) (timedelta.seconds 6)
                                busy_world)) !! j = Some r''
            ∧ ages r' r'').
Proof.
  apply (tick_completes decimal_stamp (tick "id-1") (timedelta.seconds 5)
           (timedelta.seconds 6) busy_world 0 milk).
  - reflexivity.
  - by left.
  - reflexivity.
  - exact others_untouched_by_tick.
Defined.

Lemma others_untouched_by_press :
  ∀ j r', j ≠ 3%nat → reminders busy_world !! j = Some r' → is_active r' →
          complete_checkbox (press_dismiss "id-4") (id r') = false ∧
          dismiss_button (press_dismiss "id-4") (id r') = false.
Proof.
  intros [|[|[|[|[|j]]]]] r' Hne Hr' _; simpl in Hr'; try done;
    injection Hr' as <-; by split.
Qed.

Lemma press_dismisses_active_witness :
  ended (render decimal_stamp (press_dismiss "id-4") (timedelta.seconds 5)
           (timedelta.seconds 6) busy_world) = Rerun ∧
  reminders (after (render decimal_stamp (press_dismiss "id-4")
                      (timedelta.seconds 5) (timedelta.seconds 6) busy_world))
    !! 3%nat
  = Some (Reminder "id-4" "Pay rent" (timedelta.seconds 4) 0 STATUS_DISMISSED None) ∧
  (∀ j r', j ≠ 3%nat → reminders busy_world !! j = Some r' →
     ∃ r'', reminders (after (render decimal_stamp (press_dismiss "id-4")
                                (timedelta.seconds 5) (timedelta.seconds 6)
                                busy_world)) !! j = Some r''
            ∧ ages r' r'').
Proof.
  apply (press_dismisses_active decimal_stamp (press_dismiss "id-4")
           (timedelta.seconds 5) (timedelta.seconds 6) busy_world 3 rent).
  - reflexivity.
  - by left.
  - reflexivity.
  - reflexivity.
  - exact others_untouched_by_press.
Defined.

Lemma others_untouched_by_untick :
  ∀ j r', j ≠ 1%nat → reminders busy_world !! j = Some r' →
          untouched_for (untick "id-2") r'.
Proof.
  intros [|[|[|[|[|j]]]]] r' Hne Hr'; simpl in Hr'; try done;
    injection Hr' as <-; by repeat split.
Qed.

Lemma untick_uncompletes_witness :
  ended (render decimal_stamp (untick "id-2") (timedelta.seconds 5)
           (timedelta.seconds 6) busy_world) = Rerun ∧
  reminders (after (render decimal_stamp (untick "id-2") (timedelta.seconds 5)
                      (timedelta.seconds 6) busy_world))
  = <[1%nat := Reminder "id-2" "Call Ann" (timedelta.seconds 5) 0
                 STATUS_PENDING None]>
      (age (timedelta.seconds 5) <$> reminders busy_world).
Proof.
  apply (untick_uncompletes decimal_stamp (untick "id-2") (timedelta.seconds 5)
           (timedelta.seconds 6) busy_world 1 call).
  - reflexivity.
  - reflexivity.
  - reflexivity.
  - exact others_untouched_by_untick.
Defined.

Lemma others_untouched_by_press_completed :
  ∀ j r', j ≠ 1%nat → reminders busy_world !! j = Some r' →
          untouched_for (press_dismiss_completed "id-2") r'.
Proof.
  intros [|[|[|[|[|j]]]]] r' Hne Hr'; simpl in Hr'; try done;
    injection Hr' as <-; by repeat split.
Qed.

Lemma press_dismisses_completed_witness :
  ended (render decimal_stamp (press_dismiss_completed "id-2")
           (timedelta.seconds 5) (timedelta.seconds 6) busy_world) = Rerun ∧
  reminders (after (render decimal_stamp (press_dismiss_completed "id-2")
                      (timedelta.seconds 5) (timedelta.seconds 6) busy_world))
  = <[1%nat := Reminder "id-2" "Call Ann" (timedelta.seconds 5) 0
                 STATUS_DISMISSED (Some (timedelta.seconds 7))]>
      (age (timedelta.seconds 5) <$> reminders busy_world).
Proof.
  apply (press_dismisses_completed decimal_stamp (press_dismiss_completed "id-2")
           (timedelta.seconds 5) (timedelta.seconds 6) busy_world 1 call).
  - reflexivity.
  - reflexivity.
  - reflexivity.
  - reflexivity.
  - exact others_untouched_by_press_completed.
Defined.

Lemma busy_world_untouched_by_foreign :
  ∀ r, r ∈ reminders busy_world → untouched_for (tick "id-9") r.
Proof.
  intros r Hr. simpl in Hr.
  repeat (apply elem_of_cons in Hr as [->|Hr]; [by repeat split|]).
  by apply elem_of_nil in Hr.
Qed.

Lemma foreign_widgets_ignored_witness :
  render decimal_stamp (tick "id-9") (timedelta.seconds 5) (timedelta.seconds 6)
    busy_world
  = render decimal_stamp untouched (timedelta.seconds 5) (timedelta.seconds 6)
      busy_world.
Proof.
  exact (foreign_widgets_ignored decimal_stamp (tick "id-9") (timedelta.seconds 5)
           (timedelta.seconds 6) busy_world busy_world_untouched_by_foreign).
Defined.


Lemma id_and_task_kept_witness :
  (length (reminders busy_world)
   ≤ length (reminders (after (script_run decimal_stamp
                                 (run_at (timedelta.seconds 20) all_touched)
                                 busy_world))))%nat ∧
  ∃ r', reminders (after (script_run decimal_stamp
                            (run_at (timedelta.seconds 20) all_touched)
                            busy_world)) !! 3%nat = Some r' ∧
        id r' = "id-4" ∧ task r' = "Pay rent".
Proof.
  apply (id_and_task_kept decimal_stamp busy_world _ 3 rent).
  - apply rtc_once. exists (run_at (timedelta.seconds 20) all_touched). reflexivity.
  - reflexivity.
Defined.

Lemma uncomplete_restarts_witness :
  reminders (uncomplete decimal_stamp 3 (complete decimal_stamp 6 3 busy_world))
  = <[3%nat := rent]> (reminders busy_world) ∧
  reminders (after (evaluate decimal_stamp (timedelta.seconds 5)
                      (uncomplete decimal_stamp 3
                         (complete decimal_stamp 6 3 busy_world)))) !! 3%nat
  = Some (Reminder "id-4" "Pay rent" (timedelta.seconds 4) 0 STATUS_DUE None) ∧
  filter (λ n, about n = 3%nat)
    (became_due (evaluate decimal_stamp (timedelta.seconds 5)
                   (uncomplete decimal_stamp 3
                      (complete decimal_stamp 6 3 busy_world))))
  = [Notification 3 "Pay rent"].
Proof.
  apply (uncomplete_restarts decimal_stamp 6 (timedelta.seconds 5) 3 busy_world rent).
  - reflexivity.
  - vm_compute. discriminate.
Defined.
